(** * haystack: the statistical core, embedded and verified

    Two scripts carry the numerical logic of the pipeline:

    - [haystack/workflow/scripts/calculate_taxa_probabilities.py]
      (module [Identification]): per-taxon Ts/Tv totals and the posterior of
      every taxon;
    - [scripts/calculate_dirichlet_abundances.py] (module [Abundance]):
      aggregated Dirichlet assignments, the Grey/Dark matter categories and
      the posterior abundances.

    Conventions of the embedding.

    - A numpy [float64] is a real number; [NaN] in a column is [None].
      Rounding error, overflow and underflow of IEEE arithmetic are not
      modelled.
    - A pandas [Series] is an association list from index labels to values,
      in index order; a [DataFrame] is a list of rows.
    - An exception is a value of [error]; code that may raise lives in the
      [result] monad.
    - A file is a path together with its parsed content, [None] when the
      file has zero bytes.
    - pandas and scipy behave as in the releases the scripts were written
      for: [groupby(...).sum()] leaves out the columns of strings,
      [squeeze()] turns a frame of one row and one column into a scalar,
      [hmean] refuses entries that are not positive, and [beta.interval]
      is NaN outside the domain of the shape parameters.
    - What is printed on standard error (the log) is left out. *)

From Stdlib Require Import Reals Lra List String Ascii ZArith Lia Permutation Bool.
From Stdlib Require Import Sorted.
Import ListNotations.

Open Scope string_scope.
Open Scope list_scope.
Open Scope R_scope.

(* ================================================================== *)
(** * Python: exceptions, files, [round] *)
(* ================================================================== *)

Module Py.

Inductive error : Type :=
| AssertionError (msg : string)
| ValueError (msg : string)
| AttributeError (msg : string)
| KeyError (key : string)
| EmptyDataError (msg : string).

Inductive result (A : Type) : Type :=
| Ok (a : A)
| Raise (e : error).

Arguments Ok {A} a.
Arguments Raise {A} e.

Definition bind {A B : Type} (m : result A) (k : A -> result B) : result B :=
  match m with
  | Ok a => k a
  | Raise e => Raise e
  end.

Definition is_ok {A : Type} (m : result A) : bool :=
  match m with Ok _ => true | Raise _ => false end.

(** [for x in l: ...] over a body that may raise: the first exception stops
    the loop. *)
Fixpoint mapM {A B : Type} (f : A -> result B) (l : list A) : result (list B) :=
  match l with
  | [] => Ok []
  | x :: l' =>
      bind (f x) (fun y => bind (mapM f l') (fun ys => Ok (y :: ys)))
  end.

(** A file on disk: its path and what a reader parses from it.  [None] is
    the file of zero bytes. *)
Record file (A : Type) : Type := File { path : string; content : option A }.

Arguments File {A} path content.
Arguments path {A} f.
Arguments content {A} f.

(** Truth value of [os.stat(f).st_size]. *)
Definition st_size {A : Type} (f : file A) : bool :=
  match content f with Some _ => true | None => false end.

(** [assert cond, msg] *)
Definition assert (cond : bool) (msg : string) : result unit :=
  if cond then Ok tt else Raise (AssertionError msg).

(** [float(open(f, "r").read())]: the empty string is not a number. *)
Definition float_of_file (f : file R) : result R :=
  match content f with
  | Some x => Ok x
  | None => Raise (ValueError "could not convert string to float: ''")
  end.

(** [round(x)] with one argument: nearest integer, ties to the even one. *)
Definition round (x : R) : Z :=
  let f := Int_part x in
  if Rlt_dec (x - IZR f) (1 / 2) then f
  else if Rlt_dec (1 / 2) (x - IZR f) then (f + 1)%Z
  else if Z.even f then f else (f + 1)%Z.

End Py.

Import Py.

Notation "x <- m ;; k" := (Py.bind m (fun x => k))
  (at level 61, m at next level, right associativity).

(* ================================================================== *)
(** * pandas: Series, grouping, sorting *)
(* ================================================================== *)

Module Pandas.

(** [Series.sum()] and the builtin [sum]. *)
Definition sum (l : list R) : R := fold_right Rplus 0 l.

Definition zsum (l : list Z) : Z := fold_right Z.add 0%Z l.

(** [Series.unique()] on a column of strings. *)
Definition unique (l : list string) : list string := nodup string_dec l.

(** Sorting by a total preorder given as a boolean test [before x y], "x
    may stand before y".  pandas does not fix the order of rows with equal
    keys; this sort keeps them in their order. *)
Section Sort.
Context {A : Type} (before : A -> A -> bool).

Fixpoint insert_sorted (x : A) (l : list A) : list A :=
  match l with
  | [] => [x]
  | y :: l' => if before x y then x :: l else y :: insert_sorted x l'
  end.

Definition sort (l : list A) : list A := fold_right insert_sorted [] l.
End Sort.

(** [df.groupby(key)]: rows with equal keys are collected in the order they
    are met, and the groups come out sorted by key. *)
Section Groupby.
Context {A : Type} (key : A -> string).

Fixpoint add_to_group (x : A) (gs : list (string * list A))
  : list (string * list A) :=
  match gs with
  | [] => [(key x, [x])]
  | (k, xs) :: rest =>
      if String.eqb k (key x) then (k, xs ++ [x]) :: rest
      else (k, xs) :: add_to_group x rest
  end.

Definition collect (l : list A) : list (string * list A) :=
  fold_left (fun gs x => add_to_group x gs) l [].

Definition groupby (l : list A) : list (string * list A) :=
  sort (fun g h => String.leb (fst g) (fst h)) (collect l).

(** The rows of a frame that carry the key [k]: [df[df[key] == k]]. *)
Definition has_key (k : string) (x : A) : bool := String.eqb (key x) k.

Definition rows_of (k : string) (l : list A) : list A := filter (has_key k) l.
End Groupby.

(** A Series indexed by strings. *)
Definition series (V : Type) : Type := list (string * V).

(** [s.loc[label]] *)
Fixpoint loc {V : Type} (label : string) (s : series V) : option V :=
  match s with
  | [] => None
  | (k, v) :: s' => if String.eqb k label then Some v else loc label s'
  end.

Definition loc_or_raise {V : Type} (label : string) (s : series V) : result V :=
  match loc label s with
  | Some v => Ok v
  | None => Raise (KeyError label)
  end.

(** [s.loc[label] = v]: overwrite the entry of an existing label, append a
    new entry otherwise. *)
Fixpoint loc_set {V : Type} (label : string) (v : V) (s : series V) : series V :=
  match s with
  | [] => [(label, v)]
  | (k, w) :: s' =>
      if String.eqb k label then (k, v) :: s' else (k, w) :: loc_set label v s'
  end.

(** [groupby(key).sum()] of one numeric column. *)
Definition groupby_sum {A : Type} (key : A -> string) (val : A -> R)
  (l : list A) : series R :=
  map (fun g => (fst g, sum (map val (snd g)))) (groupby key l).

(** The total of the column [val] over the rows with key [k]. *)
Definition group_total {A : Type} (key : A -> string) (val : A -> R)
  (k : string) (l : list A) : R :=
  sum (map val (rows_of key k l)).

(** The total of the column [val] over all groups. *)
Definition groups_total {A : Type} (val : A -> R)
  (gs : list (string * list A)) : R :=
  sum (map (fun g => sum (map val (snd g))) gs).

(** [DataFrame.squeeze()] of a one-column frame: a frame with one row
    collapses to a scalar, any other frame to its column. *)
Inductive squeezed (V : Type) : Type :=
| Scalar (v : V)
| Column (s : series V).

Arguments Scalar {V} v.
Arguments Column {V} s.

Definition squeeze {V : Type} (s : series V) : squeezed V :=
  match s with
  | [(_, v)] => Scalar v
  | _ => Column s
  end.

(** A method only a Series has, called on the result of [squeeze]. *)
Definition as_series {V : Type} (attr : string) (x : squeezed V)
  : result (series V) :=
  match x with
  | Column s => Ok s
  | Scalar _ =>
      Raise (AttributeError
               ("'numpy.float64' object has no attribute '" ++ attr ++ "'")%string)
  end.

(** Comparison of two float cells for [sort_values(ascending=False)]:
    larger first, NaN last. *)
Definition desc_nan_last (x y : option R) : bool :=
  match x, y with
  | Some a, Some b => if Rle_dec b a then true else false
  | Some _, None => true
  | None, Some _ => false
  | None, None => true
  end.

End Pandas.

Import Pandas.

(* ================================================================== *)
(** * calculate_taxa_probabilities.py *)
(* ================================================================== *)

Module Identification.

(** One line of the Ts/Tv count file, columns [Taxon,Read_ID,Ts,Tv]; every
    cell is filled, the counts are integers. *)
Record ts_tv_row : Type := TsTv {
  Taxon : string;
  Read_ID : string;
  Ts : Z;
  Tv : Z
}.

(** The JSON object of the parameters file. *)
Record model_params : Type := Params {
  ts_missing_val : R;
  tv_missing_val : R;
  delta_t : R;
  delta_v : R
}.

(** One row of [mismatch_df], columns in the order of the frame:
    0 Taxon, 1 Ts, 2 Tv, 3 Posterior, 4 Read_Count, 5 Total_Reads,
    6 Submatrix, 7 Sample. *)
Record mismatch_row : Type := Row {
  mTaxon : string;
  mTs : R;
  mTv : R;
  Posterior : option R;
  Read_Count : nat;
  Total_Reads : R;
  Submatrix : string;
  Sample : string
}.

(** What one call leaves behind: the lines printed on standard output and
    the frame appended to the output file. *)
Record outcome : Type := Outcome {
  stdout : list string;
  appended : list mismatch_row
}.

(** The aggregation lambda,
    [sum(num) + ((read_count - num.count()) * (missing_val + 1))]. *)
Definition agg_missing (read_count : nat) (missing_val : R) (num : list Z) : R :=
  IZR (zsum num)
  + IZR (Z.of_nat read_count - Z.of_nat (List.length num)) * (missing_val + 1).

(** Lines 51-72: the grouped frame with its constant columns. *)
Definition mismatch_frame (model_params : model_params) (read_count : nat)
  (total_fastq_reads : R) (submatrix sample_name : string)
  (ts_tv_matrix : list ts_tv_row) : list mismatch_row :=
  map (fun g =>
         Row (fst g)
             (agg_missing read_count (ts_missing_val model_params) (map Ts (snd g)))
             (agg_missing read_count (tv_missing_val model_params) (map Tv (snd g)))
             None read_count total_fastq_reads submatrix sample_name)
      (groupby Taxon ts_tv_matrix).

(** Series arithmetic used in the loop. *)
Definition subtract (col : list R) (x : R) : list R := map (fun v => v - x) col.

(** [col.rpow(base)] is [base ** col]. *)
Definition rpow (col : list R) (base : R) : list R := map (fun e => Rpower base e) col.

Definition mul (u v : list R) : list R :=
  map (fun uv => fst uv * snd uv) (combine u v).

(** [df.iloc[index, 3] = p]: column 3 is [Posterior]. *)
Definition set_Posterior (r : mismatch_row) (p : R) : mismatch_row :=
  Row (mTaxon r) (mTs r) (mTv r) (Some p) (Read_Count r) (Total_Reads r)
      (Submatrix r) (Sample r).

Fixpoint iloc_set_Posterior (df : list mismatch_row) (index : nat) (p : R)
  : list mismatch_row :=
  match df, index with
  | [], _ => []
  | r :: df', O => set_Posterior r p :: df'
  | r :: df', S i => r :: iloc_set_Posterior df' i p
  end.

(** [df.iterrows()] after [reset_index]: positions paired with rows. *)
Definition iterrows (df : list mismatch_row) : list (nat * mismatch_row) :=
  combine (seq 0 (List.length df)) df.

(** Lines 77-89. *)
Definition denominator_summation (model_params : model_params)
  (mismatch_df : list mismatch_row) (row : mismatch_row) : R :=
  let mismatch_t_vec :=
    rpow (subtract (map mTs mismatch_df) (mTs row)) (delta_t model_params) in
  let mismatch_v_vec :=
    rpow (subtract (map mTv mismatch_df) (mTv row)) (delta_v model_params) in
  let products := mul mismatch_t_vec mismatch_v_vec in
  sum products.

(** The body of the loop at lines 74-95: the frame is the loop state. *)
Definition posterior_step (model_params : model_params)
  (mismatch_df : list mismatch_row) (it : nat * mismatch_row)
  : list mismatch_row :=
  let (index, row) := it in
  let posterior_row := 1 / denominator_summation model_params mismatch_df row in
  iloc_set_Posterior mismatch_df index posterior_row.

Definition posterior_loop (model_params : model_params)
  (mismatch_df : list mismatch_row) : list mismatch_row :=
  fold_left (posterior_step model_params) (iterrows mismatch_df) mismatch_df.

(** Line 97. *)
Definition sort_values (df : list mismatch_row) : list mismatch_row :=
  sort (fun r s => desc_nan_last (Posterior r) (Posterior s)) df.

(** [pd.read_csv] raises on a file without a header line. *)
Definition read_csv {A : Type} (f : file (list A)) : result (list A) :=
  match content f with
  | Some rows => Ok rows
  | None => Raise (EmptyDataError "No columns to parse from file")
  end.

(** [pd.read_json] on a file without content. *)
Definition read_json (f : file model_params) : result model_params :=
  match content f with
  | Some p => Ok p
  | None => Raise (ValueError "Expected object or value")
  end.

(** Lines 37-102.  The count file is read twice, as in the script.  The
    result stands for the output file: the frame appended to it. *)
Definition calculate_probabilities
  (ts_tv_matrix_file : file (list ts_tv_row)) (params_file : file model_params)
  (sample_name : string) (total_fastq_reads : file R) (submatrix : string)
  : result outcome :=
  total_fastq_reads <- float_of_file total_fastq_reads ;;
  read_ids <- read_csv ts_tv_matrix_file ;;
  let read_count := List.length (unique (map Read_ID read_ids)) in
  let printed :=
    if Nat.eqb read_count 0 then ["File is empty, moving on."] else [] in
  ts_tv_matrix <- read_csv ts_tv_matrix_file ;;
  model_params <- read_json params_file ;;
  let mismatch_df :=
    mismatch_frame model_params read_count total_fastq_reads submatrix
      sample_name ts_tv_matrix in
  let mismatch_df := posterior_loop model_params mismatch_df in
  let mismatch_df := sort_values mismatch_df in
  Ok (Outcome printed mismatch_df).

(** Lines 15-34.  The argument [submatrices] is not used by the script. *)
Definition calculate_taxa_probabilities
  (ts_tv_matrix_file : file (list ts_tv_row)) (params_file : file model_params)
  (sample_name : string) (total_fastq_reads : file R)
  : result outcome :=
  _ <- assert (st_size ts_tv_matrix_file)
         ("The ts_tv count file is empty " ++ path ts_tv_matrix_file)%string ;;
  _ <- assert (st_size params_file)
         ("The probability model parameters file is empty "
            ++ path params_file)%string ;;
  calculate_probabilities ts_tv_matrix_file params_file sample_name
    total_fastq_reads "all taxa".

End Identification.

(* ================================================================== *)
(** * scipy.stats: [hmean] and [beta.interval] *)
(* ================================================================== *)

Module Scipy.

Definition all_positive (l : list R) : bool :=
  forallb (fun x => if Rlt_dec 0 x then true else false) l.

(** [hmean(a)]: [size / sum(1.0 / a)], refused unless every entry is
    greater than zero. *)
Definition hmean (a : list R) : result R :=
  if all_positive a then Ok (INR (List.length a) / sum (map (fun x => 1 / x) a))
  else Raise (ValueError
                "Harmonic mean only defined if all elements greater than zero").

Section Beta.
(** The quantile function [beta.ppf(q, a, b)] of the Beta distribution,
    for shape parameters [a, b > 0]. *)
Variable beta_ppf : R -> R -> R -> R.

(** [beta.interval(confidence, a, b)]: the equal-tailed interval
    [(ppf((1 - confidence)/2), ppf((1 + confidence)/2))]; both ends are
    NaN ([None]) when a shape parameter is not positive. *)
Definition beta_interval (confidence a b : R) : option (R * R) :=
  if Rlt_dec 0 a then
    if Rlt_dec 0 b then
      Some (beta_ppf ((1 - confidence) / 2) a b,
            beta_ppf ((1 + confidence) / 2) a b)
    else None
  else None.
End Beta.

End Scipy.

Import Scipy.

(* ================================================================== *)
(** * calculate_dirichlet_abundances.py *)
(* ================================================================== *)

Module Abundance.

(** One line of the assignment table, columns
    [Taxon,Read_ID,Dirichlet_Assignment]. *)
Record assignment_row : Type := Assign {
  Taxon : string;
  Read_ID : string;
  Dirichlet_Assignment : R
}.

(** One line of the p-values file, columns named [species], [pvalue]. *)
Record pvalue_row : Type := PValue {
  species : string;
  pvalue : R
}.

(** One row of the frame written at the end, columns in order:
    0 label, 1 Mean_Posterior_Abundance, 2 95.CI.lower, 3 95.CI.upper,
    4 Minimum.Read.Num, 5 Maximum.Read.Num, 6 Dirichlet.Read.Num,
    7 Fisher.Exact.Pvalue. *)
Record abundance_row : Type := ARow {
  label : string;
  Mean_Posterior_Abundance : R;
  CI_lower : R;
  CI_upper : R;
  Minimum_Read_Num : Z;
  Maximum_Read_Num : Z;
  Dirichlet_Read_Num : R;
  Fisher_Exact_Pvalue : option R
}.

Definition read_csv {A : Type} (f : file (list A)) : result (list A) :=
  match content f with
  | Some rows => Ok rows
  | None => Raise (EmptyDataError "No columns to parse from file")
  end.

(** Lines 38-47: harmonic mean of the p-values of every species, then the
    two NaN entries. *)
Definition hmean_group (g : string * list pvalue_row)
  : result (string * option R) :=
  h <- hmean (map pvalue (snd g)) ;;
  Ok (fst g, Some h).

Definition t_test_vector_of (pvalues : list pvalue_row)
  : result (series (option R)) :=
  applied <- mapM hmean_group (groupby species pvalues) ;;
  t_test_vector <- as_series "rename" (squeeze applied) ;;
  let t_test_vector := loc_set "Dark_Matter" None t_test_vector in
  let t_test_vector := loc_set "Grey_Matter" None t_test_vector in
  Ok t_test_vector.

(** [s.where(s == 0)]: entries that are not zero become NaN. *)
Definition where_zero (s : series R) : series (option R) :=
  map (fun kv => (fst kv, if Req_dec_T (snd kv) 0 then Some (snd kv) else None)) s.

(** [s.replace(0, 1)] *)
Definition replace_0_1 (s : series (option R)) : series (option R) :=
  map (fun kv =>
         (fst kv,
          match snd kv with
          | Some v => Some (if Req_dec_T v 0 then 1 else v)
          | None => None
          end)) s.

(** [s.fillna(0)] *)
Definition fillna_0 (s : series (option R)) : series R :=
  map (fun kv => (fst kv, match snd kv with Some v => v | None => 0 end)) s.

Definition values {V : Type} (s : series V) : list V := map snd s.

Definition index {V : Type} (s : series V) : list string := map fst s.

(** Lines 56-69: the mass of every taxon and of the two extra
    categories. *)
Definition aggregate (ts_tv_matrix : list assignment_row)
  (total_sample_fastq_reads : file R) : result (series R) :=
  ts_tv_group <-
    as_series "where"
      (squeeze (groupby_sum Read_ID Dirichlet_Assignment ts_tv_matrix)) ;;
  let grey_matter := fillna_0 (replace_0_1 (where_zero ts_tv_group)) in
  a <- as_series "loc"
         (squeeze (groupby_sum Taxon Dirichlet_Assignment ts_tv_matrix)) ;;
  let a := loc_set "Grey_Matter" (sum (values grey_matter)) a in
  total_fastq_reads <- float_of_file total_sample_fastq_reads ;;
  let reads_in_bams := List.length (unique (map Read_ID ts_tv_matrix)) in
  let remaining_dark_matter := total_fastq_reads - INR reads_in_bams in
  let a := loc_set "Dark_Matter" remaining_dark_matter a in
  Ok a.

Section Estimator.
Variable beta_ppf : R -> R -> R -> R.

(** Line 77. *)
Definition posterior_abundance_mean (a : series R) : series R :=
  let b := sum (values a) in
  sort (fun x y => desc_nan_last (Some (snd x)) (Some (snd y)))
       (map (fun kv => (fst kv, (snd kv + 1) / (b + INR (List.length a)))) a).

(** The body of the loop at lines 96-112 for the row [idx] of the sorted
    frame; [round] refuses the NaN of an invalid Beta interval. *)
Definition fill_row (a : series R) (t_test_vector : series (option R))
  (row : string * R) : result abundance_row :=
  let b := sum (values a) in
  ai <- loc_or_raise (fst row) a ;;
  match beta_interval beta_ppf (95 / 100) (ai + 1)
          (b + INR (List.length a) - ai - 1) with
  | None => Raise (ValueError "cannot convert float NaN to integer")
  | Some ci =>
      dirichlet <- loc_or_raise (fst row) a ;;
      p <- loc_or_raise (fst row) t_test_vector ;;
      Ok (ARow (fst row) (snd row) (fst ci) (snd ci)
               (round (fst ci * b)) (round (snd ci * b)) dirichlet p)
  end.

(** Lines 75-112. *)
Definition estimate (a : series R) (t_test_vector : series (option R))
  : result (list abundance_row) :=
  mapM (fill_row a t_test_vector) (posterior_abundance_mean a).

(** Lines 19-119.  The result stands for the file written at the end. *)
Definition calculate_dirichlet_abundances
  (ts_tv_file : file (list assignment_row))
  (pvaluesfile : file (list pvalue_row))
  (total_sample_fastq_reads : file R) : result (list abundance_row) :=
  _ <- assert (st_size ts_tv_file)
         ("The ts_tv count file is empty " ++ path ts_tv_file)%string ;;
  _ <- assert (st_size pvaluesfile)
         ("The t-test p values file is empty " ++ path pvaluesfile)%string ;;
  _ <- assert (st_size total_sample_fastq_reads)
         ("The total fastq reads file is empty "
            ++ path total_sample_fastq_reads)%string ;;
  pvalues <- read_csv pvaluesfile ;;
  t_test_vector <- t_test_vector_of pvalues ;;
  ts_tv_matrix <- read_csv ts_tv_file ;;
  a <- aggregate ts_tv_matrix total_sample_fastq_reads ;;
  estimate a t_test_vector.
End Estimator.

End Abundance.

(* ================================================================== *)
(** * The quantities the specification speaks of *)
(* ================================================================== *)

Module IdentificationSpec.
Import Identification.

(** Number of distinct reads of the mismatch table, the [R] of the
    specification. *)
Definition distinct_reads (table : list ts_tv_row) : nat :=
  List.length (unique (map Read_ID table)).

(** The records observed for taxon [t]. *)
Definition observed (t : string) (table : list ts_tv_row) : list ts_tv_row :=
  rows_of Taxon t table.

(** [sum(observed) + (R - n_t) * (missing + 1)] *)
Definition imputed_total (n_reads : nat) (missing : R) (counts : list Z) : R :=
  IZR (zsum counts)
  + (INR n_reads - INR (List.length counts)) * (missing + 1).

(** The term of taxon [j] in the denominator of taxon [i]:
    [deltaT ^ (tsTotal_j - tsTotal_i) * deltaV ^ (tvTotal_j - tvTotal_i)]. *)
Definition odds_term (p : model_params) (i j : mismatch_row) : R :=
  Rpower (delta_t p) (mTs j - mTs i) * Rpower (delta_v p) (mTv j - mTv i).

(** The denominator of taxon [i]: the terms of all taxa of the set. *)
Definition odds_sum (p : model_params) (df : list mismatch_row)
  (i : mismatch_row) : R :=
  sum (map (odds_term p i) df).

(** The row of taxon [r] once its posterior is known. *)
Definition filled (p : model_params) (df : list mismatch_row)
  (r : mismatch_row) : mismatch_row :=
  set_Posterior r (1 / odds_sum p df r).


End IdentificationSpec.

Module AbundanceSpec.
Import Abundance.

Definition DarkMatter : string := "Dark_Matter".
Definition GreyMatter : string := "Grey_Matter".

(** The two labels the script adds by itself. *)
Definition pseudo (l : string) : Prop := l = DarkMatter \/ l = GreyMatter.

Definition taxa (table : list assignment_row) : list string :=
  unique (map Taxon table).

(** Reads with any alignment: the distinct reads of the table. *)
Definition reads (table : list assignment_row) : list string :=
  unique (map Read_ID table).

(** Sum of the assignment weights of taxon [t] over all reads. *)
Definition taxon_mass (t : string) (table : list assignment_row) : R :=
  sum (map Dirichlet_Assignment (rows_of Taxon t table)).

(** Sum of the assignment weights of read [r] over all candidate taxa. *)
Definition read_weight (r : string) (table : list assignment_row) : R :=
  sum (map Dirichlet_Assignment (rows_of Read_ID r table)).

Definition is_zero (x : R) : bool := if Req_dec_T x 0 then true else false.

(** Reads whose summed weight is exactly 0. *)
Definition zero_weight_reads (table : list assignment_row) : list string :=
  filter (fun r => is_zero (read_weight r table)) (reads table).

(** Weights in [0,1]; per read they sum to a value in [0,1]. *)
Definition valid_assignments (table : list assignment_row) : Prop :=
  Forall (fun x => 0 <= Dirichlet_Assignment x <= 1) table /\
  Forall (fun r => 0 <= read_weight r table <= 1) (reads table).

(** No more reads with an alignment than reads in the sample. *)
Definition consistent_counts (total : R) (table : list assignment_row) : Prop :=
  INR (List.length (reads table)) <= total.

(** The p-values supplied for species [s]. *)
Definition pvalues_of (s : string) (pvalues : list pvalue_row) : list R :=
  map pvalue (rows_of species s pvalues).

(** Harmonic mean: the number of values over the sum of their inverses. *)
Definition harmonic_mean (l : list R) : R :=
  INR (List.length l) / sum (map Rinv l).

(** The harmonic mean of every species of the p-values file. *)
Definition hmean_series (pvalues : list pvalue_row) : series (option R) :=
  map (fun g => (fst g, Some (harmonic_mean (map pvalue (snd g)))))
      (groupby species pvalues).

(** The significance scores by label: the harmonic means, and NaN under
    the two extra labels. *)
Definition scores (pvalues : list pvalue_row) : series (option R) :=
  loc_set GreyMatter None (loc_set DarkMatter None (hmean_series pvalues)).

(** The mass by label: the total weight of every taxon, the number of
    zero-weight reads under [Grey_Matter], the reads without alignment
    under [Dark_Matter]. *)
Definition masses (table : list assignment_row) (total : R) : series R :=
  loc_set DarkMatter (total - INR (List.length (reads table)))
    (loc_set GreyMatter (INR (List.length (zero_weight_reads table)))
       (groupby_sum Taxon Dirichlet_Assignment table)).

(** The row the loop completes for the entry [row] of the sorted frame of
    means, once every lookup and the Beta interval succeed. *)
Definition filled_row (beta_ppf : R -> R -> R -> R) (a : series R)
  (t_test_vector : series (option R)) (row : string * R) : abundance_row :=
  let b := sum (values a) in
  let k := INR (List.length a) in
  let ai := match loc (fst row) a with Some v => v | None => 0 end in
  let lo := beta_ppf (25 / 1000) (ai + 1) (b + k - ai - 1) in
  let hi := beta_ppf (975 / 1000) (ai + 1) (b + k - ai - 1) in
  ARow (fst row) (snd row) lo hi (round (lo * b)) (round (hi * b)) ai
       (match loc (fst row) t_test_vector with Some p => p | None => None end).

(** The inputs on which every pandas and scipy call of the script is
    inside its domain: at least two reads, two taxa and two species (so
    that no [squeeze] yields a scalar), weights that are not negative,
    positive p-values, and counts that are consistent. *)
Record well_formed (table : list assignment_row) (pvalues : list pvalue_row)
  (total : R) : Prop := WellFormed {
  wf_reads : (2 <= List.length (reads table))%nat;
  wf_taxa : (2 <= List.length (taxa table))%nat;
  wf_species : (2 <= List.length (unique (map species pvalues)))%nat;
  wf_weights : Forall (fun x => 0 <= Dirichlet_Assignment x) table;
  wf_pvalues : Forall (fun x => 0 < pvalue x) pvalues;
  wf_counts : consistent_counts total table
}.

(** Every taxon of the assignment table has p-values, unless it bears the
    name of one of the two extra categories. *)
Definition covered (table : list assignment_row) (pvalues : list pvalue_row)
  : Prop :=
  forall t, In t (map Taxon table) -> pseudo t \/ In t (map species pvalues).

End AbundanceSpec.

(* ================================================================== *)
(** * Sample inputs *)
(* ================================================================== *)

Module Examples.
Import Identification Abundance.

(** Identification: the scenario of two taxa, A with totals (2,1) and B
    with totals (10,5), 5 reads, deltaT = 0.05 and deltaV = 0.1. *)
Definition two_taxa_params : model_params := Params 3 2 (5 / 100) (1 / 10).




(** A small count table: two reads, read1 seen for A and B, read2 for A. *)
Definition small_counts : list ts_tv_row :=
  [TsTv "A" "read1" 1 0; TsTv "B" "read1" 4 2; TsTv "A" "read2" 1 1].

(** Abundance: read1 is split, half of its weight on taxon A and nothing
    on B; read2 goes to B. *)
Definition half_assigned : list assignment_row :=
  [Assign "A" "read1" (1 / 2); Assign "B" "read1" 0; Assign "B" "read2" 1].

(** Two reads in the table, one read counted in the sample. *)
Definition overcounted : list assignment_row :=
  [Assign "A" "read1" 1; Assign "B" "read2" 1].

(** Fully assigned reads. *)
Definition fully_assigned : list assignment_row :=
  [Assign "A" "read1" 1; Assign "B" "read2" 1; Assign "B" "read3" 0;
   Assign "A" "read3" 0].

(** Taxon B has no line in the p-values file. *)
Definition three_taxa : list assignment_row :=
  [Assign "A" "read1" 1; Assign "B" "read2" 1; Assign "C" "read3" 1].

Definition pvalues_without_B : list pvalue_row :=
  [PValue "A" (1 / 100); PValue "A" (1 / 50); PValue "C" (1 / 20)].

Definition pvalues_ABC : list pvalue_row :=
  [PValue "A" (1 / 100); PValue "B" (1 / 50); PValue "C" (1 / 20)].

(** Two taxa of the table bear the names of the extra categories. *)
Definition colliding : list assignment_row :=
  [Assign "Grey_Matter" "read1" 1; Assign "Dark_Matter" "read2" 1;
   Assign "A" "read3" 1].

Definition colliding_pvalues : list pvalue_row :=
  [PValue "Grey_Matter" (1 / 100); PValue "Dark_Matter" (1 / 50);
   PValue "A" (1 / 20)].

(** A vector of masses with its scores. *)
Definition sample_masses : series R :=
  [("A", 3 / 2); ("B", 1); ("Grey_Matter", 0); ("Dark_Matter", 1 / 2)].

Definition sample_scores : series (option R) :=
  [("A", Some (1 / 100)); ("B", Some (1 / 20)); ("Dark_Matter", None);
   ("Grey_Matter", None)].

End Examples.

(* ================================================================== *)
(** * utilities.py: [chunker] and [normalise_name] *)
(* ================================================================== *)

Module Utilities.

(** [range(0, stop, step)] for a positive step: 0, step, 2 step, ... below
    [stop]. *)
Definition range_step (stop step : nat) : list nat :=
  map (fun i => (i * step)%nat) (seq 0 ((stop + step - 1) / step)).

(** [chunker(seq, size)]: the slices [seq[pos : pos + size]] for [pos] in
    [range(0, len(seq), size)], in the order the generator yields them.
    [range] refuses a step of 0 and is empty for a negative step. *)
Definition chunker {A : Type} (seq : list A) (size : Z) : result (list (list A)) :=
  if (size =? 0)%Z then Raise (ValueError "range() arg 3 must not be zero")
  else if (size <? 0)%Z then Ok []
  else
    Ok (map (fun pos => firstn (Z.to_nat size) (skipn pos seq))
            (range_step (List.length seq) (Z.to_nat size))).

(** [s.replace(old, new)] for a pattern [old] of one character. *)
Fixpoint replace (old : ascii) (new : string) (s : string) : string :=
  match s with
  | EmptyString => EmptyString
  | String c s' =>
      if Ascii.eqb c old then (new ++ replace old new s')%string
      else String c (replace old new s')
  end.

(** The chain of four [replace] calls: a blank becomes an underscore, the
    two square brackets are removed (replaced by the empty string), a
    slash becomes an underscore. *)
Definition normalise_name (taxon : string) : string :=
  replace "/" "_"
    (replace "]" EmptyString
       (replace "[" EmptyString (replace " " "_" taxon))).

(** The characters of a string. *)
Definition chars (s : string) : list ascii := list_ascii_of_string s.

(** The characters [normalise_name] replaces or removes. *)
Definition unwanted (c : ascii) : Prop :=
  c = " "%char \/ c = "["%char \/ c = "]"%char \/ c = "/"%char.

End Utilities.

(* ================================================================== *)
(** * calculate_bt2_idx_chunks.py *)
(* ================================================================== *)

Module Bt2Chunks.

Inductive exn : Type :=
| RuntimeError (msg : string)
| ZeroDivisionError (msg : string).

(** A fasta file of the list: its path and [os.stat(path).st_size]. *)
Record fasta : Type := Fasta { fasta_path : string; st_size : N }.

(** [os.stat(fasta_file).st_size / (1024 ** 2)] *)
Definition file_size (f : fasta) : R := IZR (Z.of_N (st_size f)) / 1048576.

Definition too_big (fasta_file : string) : string :=
  ("Fasta file " ++ fasta_file
     ++ " is bigger than the RAM resources provided. "
     ++ "Unfortunately an index cannot be built.")%string.

(** workflow/scripts/calculate_bt2_idx_chunks.py, the loop of lines 25-38
    on the state [(total_size, chunks)]. *)
Fixpoint count_chunks (mem_resources chunk_size : R) (fasta_paths : list fasta)
  (total_size : R) (chunks : nat) : exn + nat :=
  match fasta_paths with
  | [] => inr chunks
  | fasta_file :: rest =>
      if Rle_dec mem_resources (file_size fasta_file) then
        inl (RuntimeError (too_big (fasta_path fasta_file)))
      else if Rle_dec chunk_size (total_size + file_size fasta_file) then
        count_chunks mem_resources chunk_size rest (file_size fasta_file)
          (S chunks)
      else
        count_chunks mem_resources chunk_size rest
          (total_size + file_size fasta_file) chunks
  end.

(** Lines 13-41; the result is the number printed to the output file. *)
Definition calculate_bt2_idx_chunks (mem_resources mem_rescale_factor : R)
  (fasta_files : list fasta) : exn + nat :=
  if Req_dec_T mem_rescale_factor 0 then
    inl (ZeroDivisionError "float division by zero")
  else
    let chunk_size := mem_resources / mem_rescale_factor in
    count_chunks mem_resources chunk_size fasta_files 0 1.

(** scripts/calculate_bt2_idx_chunks.py, the loop of lines 28-38.  The
    limit [mem_resources_mb / float(scaling_factor)] is computed inside the
    loop, so a scaling factor of 0 only matters when there is a file. *)
Fixpoint count_chunks_old (mem_resources_mb scaling_factor : R)
  (input_file_list : list fasta) (total_file_size : R) (chunk_num : nat)
  : exn + nat :=
  match input_file_list with
  | [] => inr chunk_num
  | input_file :: rest =>
      if Req_dec_T scaling_factor 0 then
        inl (ZeroDivisionError "float division by zero")
      else
        let size_to_be := total_file_size + file_size input_file in
        if Rle_dec size_to_be (mem_resources_mb / scaling_factor) then
          count_chunks_old mem_resources_mb scaling_factor rest
            (total_file_size + file_size input_file) chunk_num
        else
          count_chunks_old mem_resources_mb scaling_factor rest
            (0 + file_size input_file) (S chunk_num)
  end.

(** Lines 12-41 of the older script; [MAX_MEM_MB] is the memory of the
    machine, used when no memory is given. *)
Definition calculate_bt2_idx_chunks_old (MAX_MEM_MB : R)
  (mem_resources mem_rescaling_factor : R) (input_file_list : list fasta)
  : exn + nat :=
  let mem_resources_mb :=
    if Req_dec_T mem_resources 0 then MAX_MEM_MB else mem_resources in
  count_chunks_old mem_resources_mb mem_rescaling_factor input_file_list 0 1.

Definition total_size (files : list fasta) : R := sum (map file_size files).

End Bt2Chunks.

(* ================================================================== *)
(** * Further quantities *)
(* ================================================================== *)

Module ExtraSpec.
Import Identification Abundance.



(** The pairs (taxon, read) of the count table. *)
Definition alignments (table : list ts_tv_row) : list (string * string) :=
  map (fun x => (Identification.Taxon x, Identification.Read_ID x)) table.




(** Row [r] stands at or above row [s] in mean abundance. *)
Definition abundance_ge (r s : abundance_row) : Prop :=
  Mean_Posterior_Abundance s <= Mean_Posterior_Abundance r.

(** P-values for the taxa A and B. *)
Definition pvalues_AB : list pvalue_row :=
  [PValue "A" (1 / 100); PValue "B" (1 / 20)].

(** One read with two candidate taxa. *)
Definition one_read : list assignment_row :=
  [Assign "A" "read1" (1 / 2); Assign "B" "read1" (1 / 2)].

(** Three fasta files of 1 MB, 2 MB and 1 MB. *)
Definition three_fastas : list Bt2Chunks.fasta :=
  [Bt2Chunks.Fasta "a.fasta" 1048576; Bt2Chunks.Fasta "b.fasta" 2097152;
   Bt2Chunks.Fasta "c.fasta" 1048576].

(** Two taxa with the same totals. *)
Definition twin_totals : list mismatch_row :=
  [Row "A" 2 1 None 5 100 "all taxa" "sample";
   Row "B" 2 1 None 5 100 "all taxa" "sample"].

End ExtraSpec.

(* ================================================================== *)
(** * Facts about [round] *)
(* ================================================================== *)

Module PyFacts.

(** [round] returns an integer at distance at most 1/2. *)
Lemma round_nearest (x : R) : Rabs (IZR (round x) - x) <= 1 / 2.
Proof.
  unfold round. destruct (base_Int_part x) as [Hlo Hhi].
  set (f := Int_part x) in *.
  destruct (Rlt_dec (x - IZR f) (1 / 2)) as [H1|H1].
  - apply Rabs_le. lra.
  - destruct (Rlt_dec (1 / 2) (x - IZR f)) as [H2|H2].
    + rewrite plus_IZR. apply Rabs_le. lra.
    + destruct (Z.even f).
      * apply Rabs_le. lra.
      * rewrite plus_IZR. apply Rabs_le. lra.
Qed.

Lemma round_integer (n : Z) : round (IZR n) = n.
Proof.
  unfold round.
  assert (E : Int_part (IZR n) = n).
  { symmetry. apply Int_part_spec. lra. }
  rewrite E. destruct (Rlt_dec (IZR n - IZR n) (1 / 2)); [reflexivity|lra].
Qed.

End PyFacts.

(* ================================================================== *)
(** * Facts about the pandas layer *)
(* ================================================================== *)

Module PandasFacts.

Lemma sum_app (l1 l2 : list R) : sum (l1 ++ l2) = sum l1 + sum l2.
Proof.
  induction l1 as [|x l1 IH]; simpl.
  - lra.
  - rewrite IH. lra.
Qed.

Lemma sum_Permutation (l1 l2 : list R) :
  Permutation l1 l2 -> sum l1 = sum l2.
Proof.
  induction 1; simpl; lra.
Qed.

Lemma sum_nonneg (l : list R) : Forall (fun x => 0 <= x) l -> 0 <= sum l.
Proof.
  induction 1; simpl; lra.
Qed.


Lemma zsum_app (l1 l2 : list Z) : zsum (l1 ++ l2) = (zsum l1 + zsum l2)%Z.
Proof.
  induction l1 as [|x l1 IH]; simpl; lia.
Qed.

Section SortFacts.
Context {A : Type} (before : A -> A -> bool).

Lemma insert_sorted_Permutation (x : A) (l : list A) :
  Permutation (insert_sorted before x l) (x :: l).
Proof.
  induction l as [|y l IH]; simpl.
  - reflexivity.
  - destruct (before x y).
    + reflexivity.
    + rewrite IH. apply perm_swap.
Qed.

Lemma sort_Permutation (l : list A) : Permutation (sort before l) l.
Proof.
  induction l as [|x l IH]; simpl.
  - reflexivity.
  - rewrite insert_sorted_Permutation. now constructor.
Qed.

Lemma In_sort (x : A) (l : list A) : In x (sort before l) <-> In x l.
Proof.
  split; apply Permutation_in;
    [apply sort_Permutation | symmetry; apply sort_Permutation].
Qed.

Lemma length_sort (l : list A) : List.length (sort before l) = List.length l.
Proof. apply Permutation_length, sort_Permutation. Qed.
End SortFacts.

Section SeriesFacts.
Context {V : Type}.

Lemma loc_In (k : string) (v : V) (s : series V) :
  loc k s = Some v -> In (k, v) s.
Proof.
  induction s as [|[k' w] s IH]; simpl; [discriminate|].
  destruct (String.eqb_spec k' k) as [->|Hne].
  - intros [= ->]. now left.
  - intros H. right. auto.
Qed.

Lemma loc_None (k : string) (s : series V) :
  loc k s = None <-> ~ In k (map fst s).
Proof.
  induction s as [|[k' w] s IH]; simpl.
  - tauto.
  - destruct (String.eqb_spec k' k) as [->|Hne].
    + split; [discriminate | tauto].
    + rewrite IH. tauto.
Qed.

Lemma In_loc (k : string) (v : V) (s : series V) :
  NoDup (map fst s) -> In (k, v) s -> loc k s = Some v.
Proof.
  induction s as [|[k' w] s IH]; simpl; [tauto|].
  intros Hnd [Heq|Hin].
  - injection Heq as -> ->. now rewrite String.eqb_refl.
  - inversion Hnd as [|? ? Hnotin Hnd']; subst.
    destruct (String.eqb_spec k' k) as [->|Hne].
    + exfalso. apply Hnotin. apply (in_map fst) in Hin. exact Hin.
    + auto.
Qed.

Lemma loc_Permutation (k : string) (s1 s2 : series V) :
  NoDup (map fst s1) -> Permutation s1 s2 -> loc k s1 = loc k s2.
Proof.
  intros Hnd Hp.
  assert (Hnd2 : NoDup (map fst s2)).
  { eapply Permutation_NoDup; [|exact Hnd]. now apply Permutation_map. }
  destruct (loc k s1) as [v|] eqn:E1.
  - symmetry. apply In_loc; [exact Hnd2|].
    eapply Permutation_in; [exact Hp|]. now apply loc_In.
  - symmetry. apply loc_None. apply loc_None in E1.
    intros Hin. apply E1. eapply Permutation_in; [|exact Hin].
    symmetry. now apply Permutation_map.
Qed.

Lemma loc_loc_set_same (k : string) (v : V) (s : series V) :
  loc k (loc_set k v s) = Some v.
Proof.
  induction s as [|[k' w] s IH]; simpl.
  - now rewrite String.eqb_refl.
  - destruct (String.eqb_spec k' k) as [->|Hne]; simpl.
    + now rewrite String.eqb_refl.
    + destruct (String.eqb_spec k' k); [contradiction|]. exact IH.
Qed.

Lemma loc_loc_set_other (k k0 : string) (v : V) (s : series V) :
  k0 <> k -> loc k0 (loc_set k v s) = loc k0 s.
Proof.
  intros Hne. induction s as [|[k' w] s IH]; simpl.
  - destruct (String.eqb_spec k k0); [congruence|reflexivity].
  - destruct (String.eqb_spec k' k) as [->|Hne']; simpl.
    + destruct (String.eqb_spec k k0); [congruence|reflexivity].
    + destruct (String.eqb_spec k' k0); [reflexivity|exact IH].
Qed.

Lemma index_loc_set (k : string) (v : V) (s : series V) :
  map fst (loc_set k v s) =
  if in_dec string_dec k (map fst s) then map fst s else map fst s ++ [k].
Proof.
  induction s as [|[k' w] s IH]; simpl.
  - reflexivity.
  - destruct (String.eqb_spec k' k) as [->|Hne]; simpl.
    + destruct (string_dec k k); [|congruence]. reflexivity.
    + rewrite IH. destruct (string_dec k' k); [contradiction|].
      destruct (in_dec string_dec k (map fst s)); reflexivity.
Qed.

Lemma NoDup_index_loc_set (k : string) (v : V) (s : series V) :
  NoDup (map fst s) -> NoDup (map fst (loc_set k v s)).
Proof.
  intros Hnd. rewrite index_loc_set.
  destruct (in_dec string_dec k (map fst s)) as [Hin|Hnin]; [exact Hnd|].
  apply NoDup_app; [exact Hnd | repeat constructor; simpl; tauto |].
  intros x Hx [<-|[]]. contradiction.
Qed.

Lemma In_index_loc_set (k k0 : string) (v : V) (s : series V) :
  In k0 (map fst (loc_set k v s)) <-> k0 = k \/ In k0 (map fst s).
Proof.
  rewrite index_loc_set.
  destruct (in_dec string_dec k (map fst s)) as [Hin|Hnin].
  - split; [tauto|]. intros [->|H]; assumption.
  - rewrite in_app_iff. simpl. intuition congruence.
Qed.
End SeriesFacts.

End PandasFacts.

Module GroupbyFacts.
Import PandasFacts.

Section Groups.
Context {A : Type} (key : A -> string).

Lemma loc_add_to_group (k : string) (x : A) (gs : list (string * list A)) :
  loc k (add_to_group key x gs) =
  if has_key key k x then
    Some (match loc k gs with Some xs => xs ++ [x] | None => [x] end)
  else loc k gs.
Proof.
  unfold has_key.
  induction gs as [|[k' xs] gs IH]; simpl.
  - destruct (String.eqb_spec (key x) k); reflexivity.
  - destruct (String.eqb_spec k' (key x)) as [->|Hne]; simpl.
    + destruct (String.eqb_spec (key x) k); reflexivity.
    + destruct (String.eqb_spec k' k) as [->|Hne'].
      * destruct (String.eqb_spec (key x) k); [congruence|reflexivity].
      * exact IH.
Qed.

Lemma collect_snoc (l : list A) (x : A) :
  collect key (l ++ [x]) = add_to_group key x (collect key l).
Proof. unfold collect. now rewrite fold_left_app. Qed.

Lemma filter_none (p : A -> bool) (l : list A) :
  existsb p l = false -> filter p l = [].
Proof.
  induction l as [|y l IH]; simpl; [reflexivity|].
  destruct (p y); simpl; [discriminate|exact IH].
Qed.

Lemma existsb_has_key (k : string) (l : list A) :
  existsb (has_key key k) l = true <-> In k (map key l).
Proof.
  rewrite existsb_exists, in_map_iff. unfold has_key.
  split; intros [x [H1 H2]]; exists x.
  - apply String.eqb_eq in H2. tauto.
  - rewrite H1, String.eqb_refl. tauto.
Qed.

Lemma loc_collect (k : string) (l : list A) :
  loc k (collect key l) =
  if existsb (has_key key k) l then Some (rows_of key k l) else None.
Proof.
  unfold rows_of.
  induction l as [|x l IH] using rev_ind.
  - reflexivity.
  - rewrite collect_snoc, loc_add_to_group, IH, existsb_app, filter_app.
    simpl. destruct (has_key key k x); simpl.
    + rewrite orb_true_r.
      destruct (existsb (has_key key k) l) eqn:E; simpl.
      * reflexivity.
      * now rewrite (filter_none _ _ E).
    + now rewrite orb_false_r, app_nil_r.
Qed.

Lemma index_add_to_group (x : A) (gs : list (string * list A)) :
  map fst (add_to_group key x gs) =
  if in_dec string_dec (key x) (map fst gs) then map fst gs
  else map fst gs ++ [key x].
Proof.
  induction gs as [|[k' xs] gs IH]; simpl.
  - reflexivity.
  - destruct (String.eqb_spec k' (key x)) as [->|Hne]; simpl.
    + destruct (string_dec (key x) (key x)); [reflexivity|congruence].
    + rewrite IH. destruct (string_dec k' (key x)); [contradiction|].
      destruct (in_dec string_dec (key x) (map fst gs)); reflexivity.
Qed.

Lemma NoDup_index_collect (l : list A) : NoDup (map fst (collect key l)).
Proof.
  induction l as [|x l IH] using rev_ind.
  - constructor.
  - rewrite collect_snoc, index_add_to_group.
    destruct (in_dec string_dec (key x) (map fst (collect key l)))
      as [Hin|Hnin]; [exact IH|].
    apply NoDup_app; [exact IH | repeat constructor; simpl; tauto |].
    intros y Hy [<-|[]]. contradiction.
Qed.

Lemma collect_groupby_Permutation (l : list A) :
  Permutation (groupby key l) (collect key l).
Proof. apply sort_Permutation. Qed.

Lemma NoDup_index_groupby (l : list A) : NoDup (map fst (groupby key l)).
Proof.
  eapply Permutation_NoDup; [|apply NoDup_index_collect].
  symmetry. apply Permutation_map, collect_groupby_Permutation.
Qed.

(** A group of the frame: its key occurs in the frame, and it holds
    exactly the rows with that key, in the order of the frame. *)
Lemma loc_groupby (k : string) (l : list A) :
  loc k (groupby key l) =
  if existsb (has_key key k) l then Some (rows_of key k l) else None.
Proof.
  rewrite <- loc_collect. apply loc_Permutation.
  - apply NoDup_index_groupby.
  - apply collect_groupby_Permutation.
Qed.

Lemma In_groupby (k : string) (xs : list A) (l : list A) :
  In (k, xs) (groupby key l) <-> In k (map key l) /\ xs = rows_of key k l.
Proof.
  split.
  - intros Hin. apply In_loc in Hin; [|apply NoDup_index_groupby].
    rewrite loc_groupby in Hin.
    destruct (existsb (has_key key k) l) eqn:E; [|discriminate].
    apply existsb_has_key in E. injection Hin as <-. tauto.
  - intros [Hk ->]. apply loc_In. rewrite loc_groupby.
    apply existsb_has_key in Hk. now rewrite Hk.
Qed.

Lemma In_index_groupby (k : string) (l : list A) :
  In k (map fst (groupby key l)) <-> In k (map key l).
Proof.
  split.
  - intros Hin. apply in_map_iff in Hin. destruct Hin as [[k' xs] [<- Hin]].
    apply In_groupby in Hin. tauto.
  - intros Hin. apply in_map_iff. exists (k, rows_of key k l).
    split; [reflexivity|]. apply In_groupby. tauto.
Qed.

(** As many groups as distinct keys. *)
Lemma length_groupby (l : list A) :
  List.length (groupby key l) = List.length (unique (map key l)).
Proof.
  rewrite <- (length_map fst).
  apply Permutation_length, NoDup_Permutation.
  - apply NoDup_index_groupby.
  - apply NoDup_nodup.
  - intros k. unfold unique. rewrite nodup_In. apply In_index_groupby.
Qed.
(** The keys of the groups are the distinct keys of the frame. *)
Lemma index_groupby_Permutation (l : list A) :
  Permutation (map fst (groupby key l)) (unique (map key l)).
Proof.
  apply NoDup_Permutation.
  - apply NoDup_index_groupby.
  - apply NoDup_nodup.
  - intros k. unfold unique. rewrite nodup_In. apply In_index_groupby.
Qed.

Section Sums.
Variable val : A -> R.

(** [groupby(key).sum()] lists, for the keys of the groups, the total
    of the rows with that key. *)
Lemma groupby_sum_by_key (l : list A) :
  groupby_sum key val l =
  map (fun k => (k, group_total key val k l)) (map fst (groupby key l)).
Proof.
  unfold groupby_sum. rewrite map_map. apply map_ext_in.
  intros [k xs] Hin. apply In_groupby in Hin. destruct Hin as [_ ->].
  reflexivity.
Qed.

Lemma index_groupby_sum (l : list A) :
  map fst (groupby_sum key val l) = map fst (groupby key l).
Proof. unfold groupby_sum. rewrite map_map. reflexivity. Qed.

Lemma length_groupby_sum (l : list A) :
  List.length (groupby_sum key val l) = List.length (unique (map key l)).
Proof. unfold groupby_sum. rewrite length_map. apply length_groupby. Qed.

Lemma loc_groupby_sum (k : string) (l : list A) :
  loc k (groupby_sum key val l) =
  if existsb (has_key key k) l then Some (group_total key val k l) else None.
Proof.
  unfold groupby_sum.
  assert (H : forall gs : list (string * list A),
             loc k (map (fun g => (fst g, sum (map val (snd g)))) gs)
             = option_map (fun xs => sum (map val xs)) (loc k gs)).
  { induction gs as [|[k' xs] gs IH]; simpl; [reflexivity|].
    destruct (String.eqb k' k); [reflexivity|exact IH]. }
  rewrite H, loc_groupby.
  destruct (existsb (has_key key k) l); reflexivity.
Qed.

Lemma groups_total_add (x : A) (gs : list (string * list A)) :
  groups_total val (add_to_group key x gs) = groups_total val gs + val x.
Proof.
  unfold groups_total.
  induction gs as [|[k xs] gs IH]; simpl.
  - lra.
  - destruct (String.eqb k (key x)); simpl.
    + rewrite map_app, sum_app. simpl. lra.
    + rewrite IH. lra.
Qed.

(** Grouping loses nothing: the group totals add up to the total of
    the column. *)
Lemma sum_groupby_sum (l : list A) :
  sum (map snd (groupby_sum key val l)) = sum (map val l).
Proof.
  unfold groupby_sum. rewrite map_map. simpl.
  transitivity (groups_total val (collect key l)).
  - unfold groups_total. apply sum_Permutation, Permutation_map.
    apply collect_groupby_Permutation.
  - induction l as [|x l IH] using rev_ind; [reflexivity|].
    rewrite collect_snoc, groups_total_add, IH, map_app, sum_app.
    simpl. lra.
Qed.
End Sums.
End Groups.
End GroupbyFacts.

(* ================================================================== *)
(** * Identification: the posterior of every taxon *)
(* ================================================================== *)

Module IdentificationFacts.
Import Identification IdentificationSpec Examples PandasFacts GroupbyFacts.

(** The three Series operations of the loop body compute, entry by entry,
    the terms of the specification. *)
Lemma products_odds_terms (p : model_params) (df : list mismatch_row)
  (row : mismatch_row) :
  mul (rpow (subtract (map mTs df) (mTs row)) (delta_t p))
      (rpow (subtract (map mTv df) (mTv row)) (delta_v p))
  = map (odds_term p row) df.
Proof.
  unfold mul, rpow, subtract, odds_term.
  induction df as [|r df IH]; simpl.
  - reflexivity.
  - now rewrite IH.
Qed.

Lemma denominator_odds_sum (p : model_params) (df : list mismatch_row)
  (row : mismatch_row) :
  denominator_summation p df row = odds_sum p df row.
Proof.
  unfold denominator_summation, odds_sum. now rewrite products_odds_terms.
Qed.

(** The denominator reads the Ts and Tv columns only. *)
Lemma odds_sum_columns (p : model_params) (df df' : list mismatch_row)
  (row : mismatch_row) :
  map mTs df = map mTs df' -> map mTv df = map mTv df' ->
  odds_sum p df row = odds_sum p df' row.
Proof.
  intros Hs Hv. unfold odds_sum. f_equal.
  revert df' Hs Hv. induction df as [|r df IH]; intros [|r' df'] Hs Hv;
    simpl in *; try discriminate; [reflexivity|].
  injection Hs as Hs1 Hs2. injection Hv as Hv1 Hv2.
  unfold odds_term at 1 3. rewrite Hs1, Hv1. f_equal. now apply IH.
Qed.

Lemma iloc_set_Posterior_middle (done : list mismatch_row) (r : mismatch_row)
  (rest : list mismatch_row) (v : R) (index : nat) :
  index = List.length done ->
  iloc_set_Posterior (done ++ r :: rest) index v
  = done ++ set_Posterior r v :: rest.
Proof.
  intros ->. induction done as [|d done IH]; simpl.
  - reflexivity.
  - now rewrite IH.
Qed.

(** Loop invariant: after the rows before position [length done] have been
    visited, they carry their posterior and the others are untouched. *)
Lemma posterior_loop_invariant (p : model_params) (df : list mismatch_row) :
  forall (rest done : list mismatch_row),
    df = done ++ rest ->
    fold_left (posterior_step p)
      (combine (seq (List.length done) (List.length rest)) rest)
      (map (filled p df) done ++ rest)
    = map (filled p df) df.
Proof.
  induction rest as [|r rest IH]; intros done Hdf.
  - simpl. subst df. now rewrite !app_nil_r.
  - simpl. rewrite denominator_odds_sum.
    rewrite (odds_sum_columns p _ df).
    + rewrite iloc_set_Posterior_middle by (symmetry; apply length_map).
      specialize (IH (done ++ [r])).
      rewrite length_app, Nat.add_1_r, map_app in IH. simpl in IH.
      rewrite <- !app_assoc in IH. simpl in IH.
      apply IH. exact Hdf.
    + subst df. rewrite !map_app, map_map. reflexivity.
    + subst df. rewrite !map_app, map_map. reflexivity.
Qed.

(** The loop in closed form. *)
Lemma posterior_loop_map (p : model_params) (df : list mismatch_row) :
  posterior_loop p df = map (filled p df) df.
Proof.
  unfold posterior_loop, iterrows.
  exact (posterior_loop_invariant p df df [] eq_refl).
Qed.









(** The rows written out are the rows of the frame, each with its
    posterior. *)
Lemma In_sorted_loop (p : model_params) (df : list mismatch_row)
  (r : mismatch_row) :
  In r (sort_values (posterior_loop p df)) <->
  exists r0, In r0 df /\ r = filled p df r0.
Proof.
  unfold sort_values. rewrite In_sort, posterior_loop_map, in_map_iff.
  split; intros [r0 [H1 H2]]; exists r0; auto.
Qed.



(** The aggregation lambda is the formula of the specification. *)
Lemma agg_missing_imputed (read_count : nat) (missing : R) (num : list Z) :
  agg_missing read_count missing num = imputed_total read_count missing num.
Proof.
  unfold agg_missing, imputed_total.
  now rewrite minus_IZR, <- !INR_IZR_INZ.
Qed.

(** With three files that have content the call runs to the end. *)
Lemma calculate_probabilities_runs (f1 f2 f3 : string)
  (table : list ts_tv_row) (p : model_params) (total : R)
  (sample_name submatrix : string) :
  calculate_probabilities (File f1 (Some table)) (File f2 (Some p))
    sample_name (File f3 (Some total)) submatrix
  = Ok (Outcome
          (if Nat.eqb (distinct_reads table) 0
           then ["File is empty, moving on."] else [])
          (sort_values
             (posterior_loop p
                (mismatch_frame p (distinct_reads table) total submatrix
                   sample_name table)))).
Proof. reflexivity. Qed.

Lemma In_mismatch_frame (p : model_params) (n : nat) (total : R)
  (submatrix sample_name : string) (table : list ts_tv_row)
  (r : mismatch_row) :
  In r (mismatch_frame p n total submatrix sample_name table) <->
  exists t, In t (map Taxon table) /\
    r = Row t
          (agg_missing n (ts_missing_val p) (map Ts (observed t table)))
          (agg_missing n (tv_missing_val p) (map Tv (observed t table)))
          None n total submatrix sample_name.
Proof.
  unfold mismatch_frame. rewrite in_map_iff. split.
  - intros [[t xs] [<- Hin]]. apply In_groupby in Hin.
    destruct Hin as [Ht ->]. exists t. split; [exact Ht|reflexivity].
  - intros [t [Ht ->]]. exists (t, rows_of Taxon t table).
    split; [reflexivity|]. apply In_groupby. tauto.
Qed.

(** C2. For a mismatch table with R distinct read ids, the frame written
    out holds, for every taxon t of the table, exactly one row; its Ts
    total is the sum of the observed Ts counts of t plus (R - n_t) *
    (ts_missing_val + 1), its Tv total likewise with tv_missing_val, n_t
    being the number of records of t; and R, the number of distinct
    Read_ID values of the whole table, is the Read_Count of every row. *)
Theorem aggregated_totals (f1 f2 f3 : string) (table : list ts_tv_row)
  (p : model_params) (total : R) (sample_name submatrix : string)
  (t : string) :
  In t (map Taxon table) ->
  exists out row,
    calculate_probabilities (File f1 (Some table)) (File f2 (Some p))
      sample_name (File f3 (Some total)) submatrix = Ok out /\
    In row (appended out) /\
    mTaxon row = t /\
    mTs row =
      IZR (zsum (map Ts (observed t table)))
      + (INR (distinct_reads table) - INR (List.length (observed t table)))
        * (ts_missing_val p + 1) /\
    mTv row =
      IZR (zsum (map Tv (observed t table)))
      + (INR (distinct_reads table) - INR (List.length (observed t table)))
        * (tv_missing_val p + 1) /\
    (forall r, In r (appended out) -> Read_Count r = distinct_reads table) /\
    (forall r, In r (appended out) -> mTaxon r = t -> r = row).
Proof.
  intros Ht. rewrite calculate_probabilities_runs.
  set (n := distinct_reads table).
  set (df := mismatch_frame p n total submatrix sample_name table).
  set (r0 := Row t
          (agg_missing n (ts_missing_val p) (map Ts (observed t table)))
          (agg_missing n (tv_missing_val p) (map Tv (observed t table)))
          None n total submatrix sample_name).
  assert (Hr0 : In r0 df).
  { apply In_mismatch_frame. exists t. split; [exact Ht|reflexivity]. }
  eexists. exists (filled p df r0). split; [reflexivity|]. simpl.
  split; [apply In_sorted_loop; eauto|].
  split; [reflexivity|].
  split; [rewrite agg_missing_imputed; unfold imputed_total;
          now rewrite length_map|].
  split; [rewrite agg_missing_imputed; unfold imputed_total;
          now rewrite length_map|].
  split.
  - intros r Hr. apply In_sorted_loop in Hr. destruct Hr as [r1 [Hr1 ->]].
    apply In_mismatch_frame in Hr1. destruct Hr1 as [t1 [_ ->]]. reflexivity.
  - intros r Hr Hrt. apply In_sorted_loop in Hr. destruct Hr as [r1 [Hr1 ->]].
    apply In_mismatch_frame in Hr1. destruct Hr1 as [t1 [_ ->]].
    simpl in Hrt. subst t1. reflexivity.
Qed.

Lemma distinct_reads_0 (table : list ts_tv_row) :
  distinct_reads table = 0%nat -> table = [].
Proof.
  unfold distinct_reads, unique. destruct table as [|r table]; [reflexivity|].
  intros H. apply length_zero_iff_nil in H.
  assert (Hin : In (Read_ID r) (nodup string_dec (map Read_ID (r :: table))))
    by (apply nodup_In; now left).
  rewrite H in Hin. destruct Hin.
Qed.

(** C6 (as the code has it). A count file that has content but no read,
    R = 0, is not refused: the call prints "File is empty, moving on.",
    goes on, and appends a frame without any row. *)
Theorem no_reads_moves_on (f1 f2 f3 : string) (table : list ts_tv_row)
  (p : model_params) (total : R) (sample_name : string) :
  distinct_reads table = 0%nat ->
  calculate_taxa_probabilities (File f1 (Some table)) (File f2 (Some p))
    sample_name (File f3 (Some total))
  = Ok (Outcome ["File is empty, moving on."] []).
Proof.
  intros H. apply distinct_reads_0 in H. subst table. reflexivity.
Qed.

(** The two assertions of [calculate_taxa_probabilities]. *)
Lemma taxa_empty_ts_tv_file (f1 : string) (params_file : file model_params)
  (sample_name : string) (total_fastq_reads : file R) :
  calculate_taxa_probabilities (File f1 None) params_file sample_name
    total_fastq_reads
  = Raise (AssertionError ("The ts_tv count file is empty " ++ f1)%string).
Proof. reflexivity. Qed.

Lemma taxa_empty_params_file (f1 f2 : string) (table : list ts_tv_row)
  (sample_name : string) (total_fastq_reads : file R) :
  calculate_taxa_probabilities (File f1 (Some table)) (File f2 None)
    sample_name total_fastq_reads
  = Raise (AssertionError
             ("The probability model parameters file is empty " ++ f2)%string).
Proof. reflexivity. Qed.

(** C9 (where the code departs from it). No assertion guards the file of
    the total read count in [calculate_taxa_probabilities]: when it has no
    content and the other two files do, the call stops in [float] with a
    ValueError whose message does not name the file. *)
Theorem taxa_empty_total_reads_file (f1 f2 f3 : string)
  (table : list ts_tv_row) (p : model_params) (sample_name : string) :
  calculate_taxa_probabilities (File f1 (Some table)) (File f2 (Some p))
    sample_name (File f3 None)
  = Raise (ValueError "could not convert string to float: ''").
Proof. reflexivity. Qed.

(** ** The theorems at sample inputs *)



Lemma aggregated_totals_witness :
  In "A" (map Taxon small_counts) /\
  exists out row,
    calculate_probabilities (File "ts_tv.csv" (Some small_counts))
      (File "params.json" (Some two_taxa_params)) "sample"
      (File "total.count" (Some 100)) "all taxa" = Ok out /\
    In row (appended out) /\ mTaxon row = "A" /\
    mTs row = 2 + (2 - 2) * (3 + 1) /\
    mTv row = 1 + (2 - 2) * (2 + 1) /\
    Read_Count row = 2%nat.
Proof.
  assert (HA : In "A" (map Taxon small_counts)) by (simpl; tauto).
  split; [exact HA|].
  destruct (aggregated_totals "ts_tv.csv" "params.json" "total.count"
              small_counts two_taxa_params 100 "sample" "all taxa" "A" HA)
    as [out [row [H1 [H2 [H3 [H4 [H5 [H6 _]]]]]]]].
  exists out, row.
  split; [exact H1|]. split; [exact H2|]. split; [exact H3|].
  split; [rewrite H4; cbn; lra|]. split; [rewrite H5; cbn; lra|].
  rewrite (H6 row H2). reflexivity.
Defined.

Lemma no_reads_moves_on_witness :
  distinct_reads [] = 0%nat /\
  calculate_taxa_probabilities (File "ts_tv.csv" (Some []))
    (File "params.json" (Some two_taxa_params)) "sample"
    (File "total.count" (Some 100))
  = Ok (Outcome ["File is empty, moving on."] []).
Proof.
  split; [reflexivity|].
  exact (no_reads_moves_on "ts_tv.csv" "params.json" "total.count" []
           two_taxa_params 100 "sample" eq_refl).
Defined.

(** A count file with its header line and no record has R = 0, and
    [calculate_probabilities] returns without raising. *)
Lemma no_reads_not_refused :
  distinct_reads [] = 0%nat /\
  exists out,
    calculate_probabilities (File "ts_tv.csv" (Some []))
      (File "params.json" (Some two_taxa_params)) "sample"
      (File "total.count" (Some 100)) "all taxa" = Ok out /\
    stdout out = ["File is empty, moving on."] /\
    appended out = [].
Proof.
  split; [reflexivity|]. eexists. split; [reflexivity|]. split; reflexivity.
Qed.

End IdentificationFacts.

(* ================================================================== *)
(** * Abundance: aggregation and the Dirichlet estimates *)
(* ================================================================== *)

Module AbundanceFacts.
Import Abundance AbundanceSpec Examples PandasFacts GroupbyFacts.

(** ** Loops that may raise *)

Lemma mapM_all_ok {A B : Type} (f : A -> result B) (g : A -> B) (l : list A) :
  (forall x, In x l -> f x = Ok (g x)) -> mapM f l = Ok (map g l).
Proof.
  induction l as [|x l IH]; intros H; simpl.
  - reflexivity.
  - rewrite (H x) by now left. simpl. rewrite IH; [reflexivity|].
    intros y Hy. apply H. now right.
Qed.

(** The loop stops at the first element whose body raises. *)
Lemma mapM_first_raise {A B : Type} (f : A -> result B) (bad : A -> Prop)
  (e : A -> error) (l : list A) :
  (forall x, In x l ->
     (~ bad x /\ exists y, f x = Ok y) \/ (bad x /\ f x = Raise (e x))) ->
  (exists x, In x l /\ bad x) ->
  exists x, In x l /\ bad x /\ mapM f l = Raise (e x).
Proof.
  induction l as [|x l IH]; intros H [x0 [Hin Hbad]]; [destruct Hin|].
  destruct (H x (or_introl eq_refl)) as [[Hgood [y Hy]]|[Hb Hr]].
  - destruct Hin as [->|Hin]; [contradiction|].
    destruct IH as [x1 [Hin1 [Hbad1 Hr1]]].
    + intros z Hz. apply H. now right.
    + now exists x0.
    + exists x1. split; [now right|]. split; [exact Hbad1|].
      simpl. rewrite Hy. simpl. now rewrite Hr1.
  - exists x. split; [now left|]. split; [exact Hb|].
    simpl. now rewrite Hr.
Qed.

(** ** Series *)

Lemma squeeze_Column {V : Type} (s : series V) :
  (2 <= List.length s)%nat -> squeeze s = Column s.
Proof.
  destruct s as [|[k v] [|kv s]]; simpl; intros H; try lia; reflexivity.
Qed.

Lemma loc_map_values {V W : Type} (h : V -> W) (k : string) (s : series V) :
  loc k (map (fun kv => (fst kv, h (snd kv))) s) = option_map h (loc k s).
Proof.
  induction s as [|[k' v] s IH]; simpl; [reflexivity|].
  destruct (String.eqb k' k); [reflexivity|exact IH].
Qed.

Lemma length_loc_set {V : Type} (k : string) (v : V) (s : series V) :
  (List.length s <= List.length (loc_set k v s))%nat.
Proof.
  induction s as [|[k' w] s IH]; simpl; [lia|].
  destruct (String.eqb k' k); simpl; lia.
Qed.

Lemma Forall_values_loc_set {V : Type} (P : V -> Prop) (k : string) (v : V)
  (s : series V) :
  P v -> Forall P (values s) -> Forall P (values (loc_set k v s)).
Proof.
  intros Hv. unfold values. induction s as [|[k' w] s IH]; simpl; intros H.
  - repeat constructor. exact Hv.
  - inversion H; subst. destruct (String.eqb k' k); simpl.
    + constructor; assumption.
    + constructor; auto.
Qed.

(** A label that is new is appended, so its value is added to the sum. *)
Lemma sum_values_loc_set_new (k : string) (v : R) (s : series R) :
  ~ In k (index s) -> sum (values (loc_set k v s)) = sum (values s) + v.
Proof.
  unfold index, values. induction s as [|[k' w] s IH]; simpl; intros Hnin.
  - lra.
  - destruct (String.eqb_spec k' k) as [->|Hne]; [tauto|].
    simpl. rewrite IH by tauto. lra.
Qed.

Lemma pseudo_labels_differ : DarkMatter <> GreyMatter.
Proof. discriminate. Qed.

(** ** The vector of harmonic means *)

Lemma all_positive_Forall (l : list R) :
  Forall (fun x => 0 < x) l -> all_positive l = true.
Proof.
  unfold all_positive. induction 1 as [|x l Hx Hl IH]; simpl; [reflexivity|].
  destruct (Rlt_dec 0 x); [exact IH|contradiction].
Qed.

Lemma hmean_harmonic_mean (l : list R) :
  Forall (fun x => 0 < x) l -> hmean l = Ok (harmonic_mean l).
Proof.
  intros H. unfold hmean, harmonic_mean. rewrite all_positive_Forall by exact H.
  do 2 f_equal. f_equal. apply map_ext. intros x. unfold Rdiv. lra.
Qed.

Lemma t_test_vector_runs (pvalues : list pvalue_row) :
  (2 <= List.length (unique (map species pvalues)))%nat ->
  Forall (fun x => 0 < pvalue x) pvalues ->
  t_test_vector_of pvalues = Ok (scores pvalues).
Proof.
  intros Hlen Hpos. unfold t_test_vector_of.
  rewrite (mapM_all_ok hmean_group
             (fun g => (fst g, Some (harmonic_mean (map pvalue (snd g)))))).
  - simpl. fold (hmean_series pvalues). rewrite squeeze_Column.
    + reflexivity.
    + unfold hmean_series. rewrite length_map, length_groupby. exact Hlen.
  - intros [s xs] Hin. apply In_groupby in Hin. destruct Hin as [_ ->].
    unfold hmean_group. simpl. rewrite hmean_harmonic_mean; [reflexivity|].
    apply Forall_forall. intros x Hx. apply in_map_iff in Hx.
    destruct Hx as [r [<- Hr]]. apply filter_In in Hr.
    rewrite Forall_forall in Hpos. apply Hpos. tauto.
Qed.

(** What the vector holds under each label. *)
Lemma loc_scores (pvalues : list pvalue_row) (l : string) :
  loc l (scores pvalues)
  = if string_dec l GreyMatter then Some None
    else if string_dec l DarkMatter then Some None
    else if existsb (has_key species l) pvalues
         then Some (Some (harmonic_mean (pvalues_of l pvalues)))
         else None.
Proof.
  unfold scores.
  destruct (string_dec l GreyMatter) as [->|Hg].
  - apply loc_loc_set_same.
  - rewrite loc_loc_set_other by exact Hg.
    destruct (string_dec l DarkMatter) as [->|Hd].
    + apply loc_loc_set_same.
    + rewrite loc_loc_set_other by exact Hd.
      unfold hmean_series.
      rewrite (loc_map_values (fun xs => Some (harmonic_mean (map pvalue xs)))).
      rewrite loc_groupby.
      destruct (existsb (has_key species l) pvalues); reflexivity.
Qed.

(** ** The masses *)

Lemma grey_matter_indicator (s : series R) :
  sum (values (fillna_0 (replace_0_1 (where_zero s))))
  = sum (map (fun v => if is_zero v then 1 else 0) (values s)).
Proof.
  unfold values, fillna_0, replace_0_1, where_zero, is_zero.
  induction s as [|[k v] s IH]; simpl; [reflexivity|].
  rewrite IH. f_equal.
  destruct (Req_dec_T v 0) as [Hz|Hnz]; [|reflexivity].
  destruct (Req_dec_T v 0); [reflexivity|contradiction].
Qed.

Lemma sum_indicator_count {A : Type} (w : A -> R) (l : list A) :
  sum (map (fun v => if is_zero v then 1 else 0) (map w l))
  = INR (List.length (filter (fun x => is_zero (w x)) l)).
Proof.
  induction l as [|x l IH]; [reflexivity|].
  cbn [map sum fold_right filter]. fold (sum (map (fun v => if is_zero v then 1 else 0) (map w l))).
  rewrite IH. destruct (is_zero (w x)).
  - cbn [List.length]. rewrite S_INR. lra.
  - lra.
Qed.

(** The entries of [ts_tv_group]: one per read, its summed weight. *)
Lemma values_ts_tv_group (table : list assignment_row) :
  Permutation
    (values (groupby_sum Read_ID Dirichlet_Assignment table))
    (map (fun r => read_weight r table) (reads table)).
Proof.
  rewrite groupby_sum_by_key. unfold values. rewrite map_map. simpl.
  apply Permutation_map. apply index_groupby_Permutation.
Qed.

Lemma grey_matter_count (table : list assignment_row) :
  sum (values (fillna_0 (replace_0_1 (where_zero
         (groupby_sum Read_ID Dirichlet_Assignment table)))))
  = INR (List.length (zero_weight_reads table)).
Proof.
  rewrite grey_matter_indicator.
  rewrite (sum_Permutation _ _
             (Permutation_map _ (values_ts_tv_group table))).
  apply sum_indicator_count.
Qed.

Lemma aggregate_runs (f : string) (table : list assignment_row) (total : R) :
  (2 <= List.length (reads table))%nat ->
  (2 <= List.length (taxa table))%nat ->
  aggregate table (File f (Some total)) = Ok (masses table total).
Proof.
  intros Hr Ht. unfold aggregate.
  rewrite squeeze_Column by (rewrite length_groupby_sum; exact Hr).
  simpl. rewrite squeeze_Column by (rewrite length_groupby_sum; exact Ht).
  simpl. rewrite grey_matter_count. reflexivity.
Qed.

(** What [a] holds under each label. *)
Lemma loc_masses (table : list assignment_row) (total : R) (l : string) :
  loc l (masses table total)
  = if string_dec l DarkMatter
    then Some (total - INR (List.length (reads table)))
    else if string_dec l GreyMatter
         then Some (INR (List.length (zero_weight_reads table)))
         else if existsb (has_key Taxon l) table
              then Some (taxon_mass l table)
              else None.
Proof.
  unfold masses.
  destruct (string_dec l DarkMatter) as [->|Hd].
  - apply loc_loc_set_same.
  - rewrite loc_loc_set_other by exact Hd.
    destruct (string_dec l GreyMatter) as [->|Hg].
    + apply loc_loc_set_same.
    + rewrite loc_loc_set_other by exact Hg.
      apply loc_groupby_sum.
Qed.

Lemma In_index_masses (table : list assignment_row) (total : R) (l : string) :
  In l (index (masses table total)) <-> pseudo l \/ In l (map Taxon table).
Proof.
  unfold masses, index, pseudo. rewrite !In_index_loc_set.
  rewrite index_groupby_sum, In_index_groupby. tauto.
Qed.

Lemma NoDup_index_masses (table : list assignment_row) (total : R) :
  NoDup (index (masses table total)).
Proof.
  unfold masses, index. do 2 apply NoDup_index_loc_set.
  rewrite index_groupby_sum. apply NoDup_index_groupby.
Qed.

Lemma length_masses (table : list assignment_row) (total : R) :
  (List.length (taxa table) <= List.length (masses table total))%nat.
Proof.
  unfold masses.
  etransitivity; [|apply length_loc_set].
  etransitivity; [|apply length_loc_set].
  rewrite length_groupby_sum. reflexivity.
Qed.

(** ** The estimates *)

Lemma member_le_sum_nonneg (x : R) (l : list R) :
  Forall (fun y => 0 <= y) l -> In x l -> x <= sum l.
Proof.
  induction 1 as [|y l Hy Hl IH]; simpl; [tauto|].
  pose proof (sum_nonneg l Hl).
  intros [->|Hin]; [lra|]. specialize (IH Hin). lra.
Qed.

(** With masses that are not negative and at least two categories, both
    shape parameters of every Beta interval are positive. *)
Lemma beta_shapes_positive (a : series R) (l : string) (ai : R) :
  Forall (fun v => 0 <= v) (values a) ->
  (2 <= List.length a)%nat ->
  In (l, ai) a ->
  0 < ai + 1 /\ 0 < sum (values a) + INR (List.length a) - ai - 1.
Proof.
  intros Hnn Hlen Hin.
  assert (Hv : In ai (values a)) by (apply (in_map snd) in Hin; exact Hin).
  assert (0 <= ai) by (rewrite Forall_forall in Hnn; auto).
  assert (ai <= sum (values a)) by (apply member_le_sum_nonneg; assumption).
  assert (2 <= INR (List.length a)).
  { apply le_INR in Hlen. simpl in Hlen. lra. }
  split; lra.
Qed.

Lemma In_posterior_abundance_mean (a : series R) (row : string * R) :
  In row (posterior_abundance_mean a) <->
  exists l ai, In (l, ai) a /\
    row = (l, (ai + 1) / (sum (values a) + INR (List.length a))).
Proof.
  unfold posterior_abundance_mean. rewrite In_sort, in_map_iff. split.
  - intros [[l ai] [<- Hin]]. exists l, ai. split; [exact Hin|reflexivity].
  - intros [l [ai [Hin ->]]]. exists (l, ai). split; [reflexivity|exact Hin].
Qed.

Lemma length_posterior_abundance_mean (a : series R) :
  List.length (posterior_abundance_mean a) = List.length a.
Proof.
  unfold posterior_abundance_mean. now rewrite length_sort, length_map.
Qed.

Section EstimatorFacts.
Variable beta_ppf : R -> R -> R -> R.

Lemma beta_interval_95 (alpha beta : R) :
  0 < alpha -> 0 < beta ->
  beta_interval beta_ppf (95 / 100) alpha beta
  = Some (beta_ppf (25 / 1000) alpha beta, beta_ppf (975 / 1000) alpha beta).
Proof.
  intros Ha Hb. unfold beta_interval.
  destruct (Rlt_dec 0 alpha); [|contradiction].
  destruct (Rlt_dec 0 beta); [|contradiction].
  replace ((1 - 95 / 100) / 2) with (25 / 1000) by lra.
  replace ((1 + 95 / 100) / 2) with (975 / 1000) by lra.
  reflexivity.
Qed.

(** One pass of the loop: the row is completed, unless the label has no
    entry in the vector of scores. *)
Lemma fill_row_cases (a : series R) (t_test_vector : series (option R))
  (row : string * R) :
  NoDup (index a) ->
  Forall (fun v => 0 <= v) (values a) ->
  (2 <= List.length a)%nat ->
  In row (posterior_abundance_mean a) ->
  fill_row beta_ppf a t_test_vector row =
  match loc (fst row) t_test_vector with
  | Some _ => Ok (filled_row beta_ppf a t_test_vector row)
  | None => Raise (KeyError (fst row))
  end.
Proof.
  intros Hnd Hnn Hlen Hin.
  apply In_posterior_abundance_mean in Hin.
  destruct Hin as [l [ai [Hin ->]]].
  destruct (beta_shapes_positive a l ai Hnn Hlen Hin) as [Hal Hbe].
  unfold fill_row, filled_row, loc_or_raise. simpl.
  rewrite (In_loc l ai a Hnd Hin). simpl.
  rewrite beta_interval_95 by assumption. simpl.
  destruct (loc l t_test_vector); reflexivity.
Qed.

Lemma estimate_runs (a : series R) (t_test_vector : series (option R)) :
  NoDup (index a) ->
  Forall (fun v => 0 <= v) (values a) ->
  (2 <= List.length a)%nat ->
  (forall l, In l (index a) -> loc l t_test_vector <> None) ->
  estimate beta_ppf a t_test_vector
  = Ok (map (filled_row beta_ppf a t_test_vector) (posterior_abundance_mean a)).
Proof.
  intros Hnd Hnn Hlen Hcov. unfold estimate. apply mapM_all_ok.
  intros row Hrow. rewrite fill_row_cases by assumption.
  apply In_posterior_abundance_mean in Hrow.
  destruct Hrow as [l [ai [Hin ->]]]. simpl.
  specialize (Hcov l (in_map fst _ _ Hin)).
  destruct (loc l t_test_vector); [reflexivity|congruence].
Qed.

Lemma estimate_key_error (a : series R) (t_test_vector : series (option R)) :
  NoDup (index a) ->
  Forall (fun v => 0 <= v) (values a) ->
  (2 <= List.length a)%nat ->
  (exists l, In l (index a) /\ loc l t_test_vector = None) ->
  exists l, In l (index a) /\ loc l t_test_vector = None /\
    estimate beta_ppf a t_test_vector = Raise (KeyError l).
Proof.
  intros Hnd Hnn Hlen [l0 [Hl0 Hmiss]]. unfold estimate.
  destruct (mapM_first_raise (fill_row beta_ppf a t_test_vector)
              (fun row => loc (fst row) t_test_vector = None)
              (fun row => KeyError (fst row))
              (posterior_abundance_mean a)) as [row [Hrow [Hbad Hr]]].
  - intros row Hrow. rewrite fill_row_cases by assumption.
    destruct (loc (fst row) t_test_vector).
    + left. split; [discriminate|eauto].
    + right. split; reflexivity.
  - apply in_map_iff in Hl0. destruct Hl0 as [[l ai] [<- Hin]].
    exists (l, (ai + 1) / (sum (values a) + INR (List.length a))).
    split; [|exact Hmiss].
    apply In_posterior_abundance_mean. eauto.
  - exists (fst row). split; [|split; assumption].
    apply In_posterior_abundance_mean in Hrow.
    destruct Hrow as [l [ai [Hin ->]]]. apply (in_map fst) in Hin. exact Hin.
Qed.

Lemma beta_interval_nan (confidence alpha beta : R) :
  ~ (0 < alpha /\ 0 < beta) ->
  beta_interval beta_ppf confidence alpha beta = None.
Proof.
  intros H. unfold beta_interval.
  destruct (Rlt_dec 0 alpha); [|reflexivity].
  destruct (Rlt_dec 0 beta); [tauto|reflexivity].
Qed.

(** A mass whose Beta interval is NaN stops the loop in [round]. *)
Lemma estimate_nan_interval (a : series R) (t_test_vector : series (option R)) :
  NoDup (index a) ->
  (forall l, In l (index a) -> loc l t_test_vector <> None) ->
  (exists l ai, In (l, ai) a /\
     ~ (0 < ai + 1 /\ 0 < sum (values a) + INR (List.length a) - ai - 1)) ->
  estimate beta_ppf a t_test_vector
  = Raise (ValueError "cannot convert float NaN to integer").
Proof.
  intros Hnd Hcov [l0 [a0 [Hin0 Hbad0]]]. unfold estimate.
  destruct (mapM_first_raise (fill_row beta_ppf a t_test_vector)
              (fun row => exists ai, In (fst row, ai) a /\
                 ~ (0 < ai + 1 /\
                    0 < sum (values a) + INR (List.length a) - ai - 1))
              (fun _ => ValueError "cannot convert float NaN to integer")
              (posterior_abundance_mean a)) as [row [_ [_ Hr]]].
  - intros row Hrow. apply In_posterior_abundance_mean in Hrow.
    destruct Hrow as [l [ai [Hin ->]]].
    unfold fill_row, loc_or_raise. simpl.
    rewrite (In_loc l ai a Hnd Hin). simpl.
    destruct (Rlt_dec 0 (ai + 1)) as [Ha|Ha];
      [destruct (Rlt_dec 0 (sum (values a) + INR (List.length a) - ai - 1))
         as [Hb|Hb]|].
    + left. split.
      * intros [ai' [Hin' Hn]].
        pose proof (In_loc l ai' a Hnd Hin') as E.
        rewrite (In_loc l ai a Hnd Hin) in E. injection E as <-. tauto.
      * rewrite beta_interval_95 by assumption. simpl.
        specialize (Hcov l (in_map fst _ _ Hin)). simpl in Hcov.
        destruct (loc l t_test_vector); [simpl; eauto|congruence].
    + right. split; [exists ai; split; [exact Hin|tauto]|].
      rewrite beta_interval_nan by tauto. reflexivity.
    + right. split; [exists ai; split; [exact Hin|tauto]|].
      rewrite beta_interval_nan by tauto. reflexivity.
  - exists (l0, (a0 + 1) / (sum (values a) + INR (List.length a))).
    split; [apply In_posterior_abundance_mean; eauto|].
    exists a0. split; assumption.
  - exact Hr.
Qed.

(** C3. For a vector [a] of k >= 2 masses, none negative, with total b and
    a score for every label, the estimator completes, with one row per
    category; the row of category i with mass a_i has mean abundance
    (a_i + 1)/(b + k), as interval the 0.025 and 0.975 quantiles of
    Beta(a_i + 1, b + k - a_i - 1), as minimum and maximum read numbers
    round(lower * b) and round(upper * b), and as Dirichlet read number the
    mass a_i itself. *)
Theorem abundance_estimates (a : series R) (t_test_vector : series (option R)) :
  NoDup (index a) ->
  Forall (fun v => 0 <= v) (values a) ->
  (2 <= List.length a)%nat ->
  (forall l, In l (index a) -> In l (index t_test_vector)) ->
  let b := sum (values a) in
  let k := INR (List.length a) in
  exists rows,
    estimate beta_ppf a t_test_vector = Ok rows /\
    List.length rows = List.length a /\
    (forall row, In row rows -> In (label row, Dirichlet_Read_Num row) a) /\
    (forall l ai, In (l, ai) a ->
       exists row, In row rows /\ label row = l /\
         Mean_Posterior_Abundance row = (ai + 1) / (b + k) /\
         CI_lower row = beta_ppf (25 / 1000) (ai + 1) (b + k - ai - 1) /\
         CI_upper row = beta_ppf (975 / 1000) (ai + 1) (b + k - ai - 1) /\
         Minimum_Read_Num row = round (CI_lower row * b) /\
         Maximum_Read_Num row = round (CI_upper row * b) /\
         Dirichlet_Read_Num row = ai).
Proof.
  intros Hnd Hnn Hlen Hcov b k.
  exists (map (filled_row beta_ppf a t_test_vector) (posterior_abundance_mean a)).
  split; [|split; [|split]].
  - apply estimate_runs; try assumption.
    intros l Hl. apply Hcov in Hl. intros Hnone.
    apply loc_None in Hnone. contradiction.
  - now rewrite length_map, length_posterior_abundance_mean.
  - intros row Hrow. apply in_map_iff in Hrow.
    destruct Hrow as [r [<- Hr]].
    apply In_posterior_abundance_mean in Hr.
    destruct Hr as [l [ai [Hin ->]]]. simpl.
    now rewrite (In_loc l ai a Hnd Hin).
  - intros l ai Hin.
    exists (filled_row beta_ppf a t_test_vector (l, (ai + 1) / (b + k))).
    split.
    + apply in_map. apply In_posterior_abundance_mean. eauto.
    + unfold filled_row. simpl. rewrite (In_loc l ai a Hnd Hin).
      repeat split; reflexivity.
Qed.

End EstimatorFacts.

(** ** The whole script *)

Lemma group_total_nonneg {A : Type} (key : A -> string) (val : A -> R)
  (k : string) (l : list A) :
  Forall (fun x => 0 <= val x) l -> 0 <= group_total key val k l.
Proof.
  intros H. unfold group_total, rows_of. apply sum_nonneg.
  apply Forall_forall. intros v Hv. apply in_map_iff in Hv.
  destruct Hv as [x [<- Hx]]. apply filter_In in Hx.
  rewrite Forall_forall in H. apply H. tauto.
Qed.

Lemma masses_nonneg (table : list assignment_row) (total : R) :
  Forall (fun x => 0 <= Dirichlet_Assignment x) table ->
  consistent_counts total table ->
  Forall (fun v => 0 <= v) (values (masses table total)).
Proof.
  intros Hw Hc. unfold masses.
  apply Forall_values_loc_set; [unfold consistent_counts in Hc; lra|].
  apply Forall_values_loc_set; [apply pos_INR|].
  rewrite groupby_sum_by_key. unfold values. rewrite map_map. simpl.
  apply Forall_forall. intros v Hv. apply in_map_iff in Hv.
  destruct Hv as [k [<- _]]. now apply group_total_nonneg.
Qed.

Lemma in_species_existsb (pvalues : list pvalue_row) (l : string) :
  existsb (has_key species l) pvalues = true <-> In l (map species pvalues).
Proof. apply existsb_has_key. Qed.

Lemma not_pseudo (l : string) :
  ~ pseudo l -> l <> GreyMatter /\ l <> DarkMatter.
Proof. unfold pseudo. tauto. Qed.

(** The score kept for a label of [a]. *)
Lemma score_of_label (pvalues : list pvalue_row) (l : string) :
  (pseudo l -> loc l (scores pvalues) = Some None) /\
  (~ pseudo l -> In l (map species pvalues) ->
   loc l (scores pvalues) = Some (Some (harmonic_mean (pvalues_of l pvalues)))) /\
  (~ pseudo l -> ~ In l (map species pvalues) -> loc l (scores pvalues) = None).
Proof.
  rewrite loc_scores. unfold pseudo. repeat split.
  - intros [->| ->].
    + destruct (string_dec DarkMatter GreyMatter); [reflexivity|].
      destruct (string_dec DarkMatter DarkMatter); [reflexivity|congruence].
    + destruct (string_dec GreyMatter GreyMatter); [reflexivity|congruence].
  - intros Hn Hin. destruct (string_dec l GreyMatter); [tauto|].
    destruct (string_dec l DarkMatter); [tauto|].
    apply in_species_existsb in Hin. now rewrite Hin.
  - intros Hn Hnin. destruct (string_dec l GreyMatter); [tauto|].
    destruct (string_dec l DarkMatter); [tauto|].
    destruct (existsb (has_key species l) pvalues) eqn:E; [|reflexivity].
    apply in_species_existsb in E. contradiction.
Qed.

Section ScriptFacts.
Variable beta_ppf : R -> R -> R -> R.

(** Up to the estimator the script runs on every well-formed input. *)
Lemma script_reaches_estimate (f1 f2 f3 : string)
  (table : list assignment_row) (pvalues : list pvalue_row) (total : R) :
  (2 <= List.length (reads table))%nat ->
  (2 <= List.length (taxa table))%nat ->
  (2 <= List.length (unique (map species pvalues)))%nat ->
  Forall (fun x => 0 < pvalue x) pvalues ->
  calculate_dirichlet_abundances beta_ppf (File f1 (Some table))
    (File f2 (Some pvalues)) (File f3 (Some total))
  = estimate beta_ppf (masses table total) (scores pvalues).
Proof.
  intros Hr Ht Hs Hp. unfold calculate_dirichlet_abundances. simpl.
  rewrite t_test_vector_runs by assumption. simpl.
  rewrite aggregate_runs by assumption. reflexivity.
Qed.

Lemma scores_cover_masses (table : list assignment_row)
  (pvalues : list pvalue_row) (total : R) :
  covered table pvalues ->
  forall l, In l (index (masses table total)) -> loc l (scores pvalues) <> None.
Proof.
  intros Hcov l Hl. apply In_index_masses in Hl.
  destruct (score_of_label pvalues l) as [Hps [Hsp _]].
  assert (Hcase : pseudo l \/ (~ pseudo l /\ In l (map species pvalues))).
  { destruct (string_dec l DarkMatter) as [->|Hd]; [left; now left|].
    destruct (string_dec l GreyMatter) as [->|Hg]; [left; now right|].
    right. assert (Hn : ~ pseudo l) by (unfold pseudo; tauto).
    split; [exact Hn|]. destruct Hl as [Hl|Hl]; [contradiction|].
    destruct (Hcov l Hl); [contradiction|assumption]. }
  destruct Hcase as [Hpl|[Hn Hin]].
  - rewrite (Hps Hpl). discriminate.
  - rewrite (Hsp Hn Hin). discriminate.
Qed.

(** X16. When the sample is said to hold at least one read less than the table
    has, the Dark_Matter mass is at most -1, its Beta interval is NaN, and
    the script stops in [round]. *)
Lemma deficit_stops_in_round (f1 f2 f3 : string)
  (table : list assignment_row) (pvalues : list pvalue_row) (total : R) :
  (2 <= List.length (reads table))%nat ->
  (2 <= List.length (taxa table))%nat ->
  (2 <= List.length (unique (map species pvalues)))%nat ->
  Forall (fun x => 0 < pvalue x) pvalues ->
  covered table pvalues ->
  total + 1 <= INR (List.length (reads table)) ->
  calculate_dirichlet_abundances beta_ppf (File f1 (Some table))
    (File f2 (Some pvalues)) (File f3 (Some total))
  = Raise (ValueError "cannot convert float NaN to integer").
Proof.
  intros Hr Ht Hs Hp Hcov Hdef.
  rewrite script_reaches_estimate by assumption.
  apply estimate_nan_interval.
  - apply NoDup_index_masses.
  - now apply scores_cover_masses.
  - exists DarkMatter, (total - INR (List.length (reads table))).
    split; [|lra].
    apply loc_In. rewrite loc_masses.
    destruct (string_dec DarkMatter DarkMatter); congruence.
Qed.

Lemma script_runs (f1 f2 f3 : string)
  (table : list assignment_row) (pvalues : list pvalue_row) (total : R) :
  well_formed table pvalues total ->
  covered table pvalues ->
  calculate_dirichlet_abundances beta_ppf (File f1 (Some table))
    (File f2 (Some pvalues)) (File f3 (Some total))
  = Ok (map (filled_row beta_ppf (masses table total) (scores pvalues))
          (posterior_abundance_mean (masses table total))).
Proof.
  intros Hwf Hcov. destruct Hwf as [Hr Ht Hs Hw Hp Hc].
  rewrite script_reaches_estimate by assumption.
  apply estimate_runs.
  - apply NoDup_index_masses.
  - now apply masses_nonneg.
  - etransitivity; [exact Ht|apply length_masses].
  - now apply scores_cover_masses.
Qed.

Lemma script_key_error (f1 f2 f3 : string)
  (table : list assignment_row) (pvalues : list pvalue_row) (total : R) :
  well_formed table pvalues total ->
  (exists t, In t (map Taxon table) /\ ~ pseudo t /\
             ~ In t (map species pvalues)) ->
  exists t, In t (map Taxon table) /\ ~ pseudo t /\
    ~ In t (map species pvalues) /\
    calculate_dirichlet_abundances beta_ppf (File f1 (Some table))
      (File f2 (Some pvalues)) (File f3 (Some total))
    = Raise (KeyError t).
Proof.
  intros Hwf [t0 [Ht0 [Hn0 Hm0]]].
  destruct Hwf as [Hr Ht Hs Hw Hp Hc].
  rewrite script_reaches_estimate by assumption.
  destruct (estimate_key_error beta_ppf (masses table total) (scores pvalues))
    as [l [Hl [Hmiss Hraise]]].
  - apply NoDup_index_masses.
  - now apply masses_nonneg.
  - etransitivity; [exact Ht|apply length_masses].
  - exists t0. split; [apply In_index_masses; now right|].
    now apply score_of_label.
  - assert (Hnp : ~ pseudo l).
    { intros Hpl. destruct (score_of_label pvalues l) as [Hps _].
      rewrite (Hps Hpl) in Hmiss. discriminate. }
    assert (Hns : ~ In l (map species pvalues)).
    { intros Hin. destruct (score_of_label pvalues l) as [_ [Hsp _]].
      rewrite (Hsp Hnp Hin) in Hmiss. discriminate. }
    exists l. apply In_index_masses in Hl.
    destruct Hl as [Hl|Hl]; [contradiction|]. tauto.
Qed.

(** Every row written out carries the mass and the score kept under its
    label, and every label has its row. *)
Lemma rows_by_label (a : series R) (t_test_vector : series (option R)) :
  NoDup (index a) ->
  let rows := map (filled_row beta_ppf a t_test_vector)
                (posterior_abundance_mean a) in
  (forall row, In row rows ->
     loc (label row) a = Some (Dirichlet_Read_Num row) /\
     Fisher_Exact_Pvalue row =
       match loc (label row) t_test_vector with
       | Some p => p
       | None => None
       end) /\
  (forall l, In l (index a) -> exists row, In row rows /\ label row = l) /\
  (forall r1 r2, In r1 rows -> In r2 rows -> label r1 = label r2 -> r1 = r2).
Proof.
  intros Hnd rows. split; [|split].
  - intros row Hrow. apply in_map_iff in Hrow. destruct Hrow as [r [<- Hr]].
    apply In_posterior_abundance_mean in Hr.
    destruct Hr as [l [ai [Hin ->]]]. simpl.
    rewrite (In_loc l ai a Hnd Hin). split; reflexivity.
  - intros l Hl. apply in_map_iff in Hl. destruct Hl as [[l' ai] [<- Hin]].
    eexists. split.
    + apply in_map. apply In_posterior_abundance_mean. eauto.
    + reflexivity.
  - intros r1 r2 H1 H2 Heq.
    apply in_map_iff in H1. destruct H1 as [x1 [<- Hx1]].
    apply in_map_iff in H2. destruct H2 as [x2 [<- Hx2]].
    apply In_posterior_abundance_mean in Hx1.
    destruct Hx1 as [l1 [a1 [Hin1 ->]]].
    apply In_posterior_abundance_mean in Hx2.
    destruct Hx2 as [l2 [a2 [Hin2 ->]]].
    simpl in Heq. subst l2.
    pose proof (In_loc l1 a1 a Hnd Hin1) as E1.
    pose proof (In_loc l1 a2 a Hnd Hin2) as E2.
    rewrite E1 in E2. injection E2 as <-. reflexivity.
Qed.

End ScriptFacts.

(** ** Conservation of mass *)

Lemma zero_or_one_count {A : Type} (w : A -> R) (l : list A) :
  (forall x, In x l -> w x = 0 \/ w x = 1) ->
  sum (map w l) + INR (List.length (filter (fun x => is_zero (w x)) l))
  = INR (List.length l).
Proof.
  induction l as [|x l IH]; intros H.
  - simpl. lra.
  - cbn [map filter List.length]. rewrite S_INR.
    assert (IH' := IH (fun y Hy => H y (or_intror Hy))).
    change (sum (w x :: map w l)) with (w x + sum (map w l)).
    unfold is_zero at 1.
    destruct (Req_dec_T (w x) 0) as [Hz|Hnz].
    + cbn [List.length]. rewrite S_INR. lra.
    + destruct (H x (or_introl eq_refl)); [contradiction|]. lra.
Qed.

Lemma sum_read_weights (table : list assignment_row) :
  sum (map (fun r => read_weight r table) (reads table))
  = sum (map Dirichlet_Assignment table).
Proof.
  rewrite <- (sum_Permutation _ _ (values_ts_tv_group table)).
  apply sum_groupby_sum.
Qed.

(** When no taxon bears the name of an extra category, both entries are
    appended and the total of [a] splits into three parts. *)
Lemma sum_masses (table : list assignment_row) (total : R) :
  ~ In GreyMatter (map Taxon table) ->
  ~ In DarkMatter (map Taxon table) ->
  sum (values (masses table total))
  = sum (map Dirichlet_Assignment table)
    + INR (List.length (zero_weight_reads table))
    + (total - INR (List.length (reads table))).
Proof.
  intros Hg Hd. unfold masses.
  rewrite sum_values_loc_set_new.
  - rewrite sum_values_loc_set_new.
    + unfold values. rewrite sum_groupby_sum. reflexivity.
    + unfold index. rewrite index_groupby_sum, In_index_groupby. exact Hg.
  - unfold index. rewrite In_index_loc_set, index_groupby_sum, In_index_groupby.
    intros [H|H]; [discriminate H|contradiction].
Qed.

(** C4 (as the code has it). When the table has at least two reads and two
    taxa, no taxon is named Grey_Matter or Dark_Matter, and the weights of
    every read sum to exactly 0 or exactly 1, the masses of all categories,
    the two extra ones included, sum to the total number of reads of the
    sample. *)
Theorem mass_conservation (f : string) (table : list assignment_row)
  (total : R) :
  (2 <= List.length (reads table))%nat ->
  (2 <= List.length (taxa table))%nat ->
  ~ In GreyMatter (map Taxon table) ->
  ~ In DarkMatter (map Taxon table) ->
  (forall r, In r (reads table) ->
     read_weight r table = 0 \/ read_weight r table = 1) ->
  exists a,
    aggregate table (File f (Some total)) = Ok a /\
    sum (values a) = total.
Proof.
  intros Hr Ht Hg Hd Hw. exists (masses table total).
  split; [now apply aggregate_runs|].
  rewrite sum_masses by assumption.
  rewrite <- sum_read_weights.
  pose proof (zero_or_one_count (fun r => read_weight r table) (reads table) Hw)
    as H.
  unfold zero_weight_reads. lra.
Qed.

(** C5 (as the code has it). Whenever the aggregation runs, the mass under
    Dark_Matter is the total read count minus the number of distinct reads
    of the table, whatever its sign: the counts are never compared. *)
Theorem dark_matter_mass (f : string) (table : list assignment_row)
  (total : R) :
  (2 <= List.length (reads table))%nat ->
  (2 <= List.length (taxa table))%nat ->
  exists a,
    aggregate table (File f (Some total)) = Ok a /\
    loc DarkMatter a = Some (total - INR (List.length (reads table))).
Proof.
  intros Hr Ht. exists (masses table total).
  split; [now apply aggregate_runs|].
  rewrite loc_masses. destruct (string_dec DarkMatter DarkMatter); congruence.
Qed.

Section ScriptClaims.
Variable beta_ppf : R -> R -> R -> R.

(** The three assertions at the head of the script, in their order. *)
Lemma abundance_empty_input_files (f1 f2 f3 : string)
  (table : list assignment_row) (pvalues : list pvalue_row)
  (pvaluesfile : file (list pvalue_row)) (total_file : file R) :
  calculate_dirichlet_abundances beta_ppf (File f1 None) pvaluesfile total_file
  = Raise (AssertionError ("The ts_tv count file is empty " ++ f1)%string) /\
  calculate_dirichlet_abundances beta_ppf (File f1 (Some table)) (File f2 None)
    total_file
  = Raise (AssertionError ("The t-test p values file is empty " ++ f2)%string) /\
  calculate_dirichlet_abundances beta_ppf (File f1 (Some table))
    (File f2 (Some pvalues)) (File f3 None)
  = Raise (AssertionError
             ("The total fastq reads file is empty " ++ f3)%string).
Proof. repeat split; reflexivity. Qed.

(** C8 (as the code has it). On a well-formed input: if every taxon of the
    assignment table has p-values or bears the name of an extra category,
    the script completes, every taxon has a row, the rows labelled
    Dark_Matter and Grey_Matter have a NaN score and every other row has as
    score the harmonic mean of the p-values of its taxon; if some taxon
    has no p-values and is not so named, the script stops with a KeyError
    on such a taxon. *)
Theorem significance_scores (f1 f2 f3 : string)
  (table : list assignment_row) (pvalues : list pvalue_row) (total : R) :
  well_formed table pvalues total ->
  (covered table pvalues ->
   exists rows,
     calculate_dirichlet_abundances beta_ppf (File f1 (Some table))
       (File f2 (Some pvalues)) (File f3 (Some total)) = Ok rows /\
     (forall t, In t (map Taxon table) ->
        exists row, In row rows /\ label row = t) /\
     (forall row, In row rows ->
        (pseudo (label row) -> Fisher_Exact_Pvalue row = None) /\
        (~ pseudo (label row) ->
           In (label row) (map species pvalues) /\
           Fisher_Exact_Pvalue row
           = Some (harmonic_mean (pvalues_of (label row) pvalues))))) /\
  ((exists t, In t (map Taxon table) /\ ~ pseudo t /\
              ~ In t (map species pvalues)) ->
   exists t, In t (map Taxon table) /\ ~ pseudo t /\
     ~ In t (map species pvalues) /\
     calculate_dirichlet_abundances beta_ppf (File f1 (Some table))
       (File f2 (Some pvalues)) (File f3 (Some total)) = Raise (KeyError t)).
Proof.
  intros Hwf. split; [|now apply script_key_error].
  intros Hcov. eexists. split; [now apply script_runs|].
  destruct (rows_by_label beta_ppf (masses table total) (scores pvalues)
              (NoDup_index_masses table total)) as [Hrow [Hlab _]].
  split.
  - intros t Ht. apply Hlab. apply In_index_masses. now right.
  - intros row Hin. destruct (Hrow row Hin) as [Hmass Hscore].
    destruct (score_of_label pvalues (label row)) as [Hps [Hsp _]].
    split.
    + intros Hp. rewrite Hscore, (Hps Hp). reflexivity.
    + intros Hn.
      assert (Hsp' : In (label row) (map species pvalues)).
      { apply loc_In in Hmass. apply (in_map fst) in Hmass. simpl in Hmass.
        apply In_index_masses in Hmass.
        destruct Hmass as [Hp|Ht]; [contradiction|].
        destruct (Hcov _ Ht); [contradiction|assumption]. }
      split; [exact Hsp'|]. rewrite Hscore, (Hsp Hn Hsp'). reflexivity.
Qed.

End ScriptClaims.

(** ** The theorems at sample inputs *)

Lemma is_zero_false (x : R) : x <> 0 -> is_zero x = false.
Proof. intros H. unfold is_zero. destruct (Req_dec_T x 0); congruence. Qed.

Lemma is_zero_true (x : R) : x = 0 -> is_zero x = true.
Proof. intros H. unfold is_zero. destruct (Req_dec_T x 0); congruence. Qed.

(** Case analysis over the members of a list given in full. *)
Ltac members H :=
  cbn in H; repeat (destruct H as [<-|H]); try contradiction.

Ltac each_member :=
  apply Forall_forall;
  let x := fresh "x" in
  let H := fresh "H" in
  intros x H; members H; cbn; lra.

Ltac counted := vm_compute; lia.

Ltac well_formed_input :=
  constructor;
  [ counted | counted | counted | each_member | each_member
  | unfold consistent_counts; cbn; lra ].

Ltac covered_input :=
  let t := fresh "t" in
  let H := fresh "H" in
  intros t H; members H;
  first [ right; cbn; tauto | left; left; reflexivity | left; right; reflexivity ].

Lemma abundance_estimates_witness :
  NoDup (index sample_masses) /\
  Forall (fun v => 0 <= v) (values sample_masses) /\
  (2 <= List.length sample_masses)%nat /\
  forall beta_ppf,
  exists rows,
    estimate beta_ppf sample_masses sample_scores = Ok rows /\
    List.length rows = 4%nat /\
    (forall row, In row rows ->
       In (label row, Dirichlet_Read_Num row) sample_masses).
Proof.
  assert (Hnd : NoDup (index sample_masses)).
  { cbn. repeat constructor; cbn; intuition discriminate. }
  assert (Hnn : Forall (fun v => 0 <= v) (values sample_masses)) by each_member.
  assert (Hlen : (2 <= List.length sample_masses)%nat) by counted.
  assert (Hcov : forall l, In l (index sample_masses) ->
                           In l (index sample_scores)).
  { intros l Hl. cbn in Hl |- *. tauto. }
  split; [exact Hnd|]. split; [exact Hnn|]. split; [exact Hlen|].
  intros beta_ppf.
  destruct (abundance_estimates beta_ppf sample_masses sample_scores
              Hnd Hnn Hlen Hcov) as [rows [H1 [H2 [H3 _]]]].
  exists rows. split; [exact H1|]. split; [exact H2|exact H3].
Defined.

(** A read split between taxa with half of its weight unassigned: the
    masses sum to 1.5, the sample has 2 reads. *)
Lemma mass_not_conserved :
  valid_assignments half_assigned /\
  consistent_counts 2 half_assigned /\
  exists a,
    aggregate half_assigned (File "total_reads.txt" (Some 2)) = Ok a /\
    sum (values a) = 3 / 2 /\
    sum (values a) <> 2.
Proof.
  split; [split; each_member|].
  split; [unfold consistent_counts; cbn; lra|].
  exists (masses half_assigned 2).
  split; [apply aggregate_runs; counted|].
  assert (H : sum (values (masses half_assigned 2)) = 3 / 2).
  { rewrite sum_masses by (cbn; intuition discriminate).
    unfold zero_weight_reads. cbn.
    rewrite !is_zero_false by lra. cbn. lra. }
  split; [exact H|]. rewrite H. lra.
Qed.

Lemma mass_conservation_witness :
  (2 <= List.length (reads fully_assigned))%nat /\
  (2 <= List.length (taxa fully_assigned))%nat /\
  exists a,
    aggregate fully_assigned (File "total_reads.txt" (Some 5)) = Ok a /\
    sum (values a) = 5.
Proof.
  assert (Hr : (2 <= List.length (reads fully_assigned))%nat) by counted.
  assert (Ht : (2 <= List.length (taxa fully_assigned))%nat) by counted.
  split; [exact Hr|]. split; [exact Ht|].
  apply (mass_conservation "total_reads.txt" fully_assigned 5 Hr Ht).
  - cbn. intuition discriminate.
  - cbn. intuition discriminate.
  - intros r H. members H; cbn; first [left; lra | right; lra].
Defined.

(** Two reads with an alignment in a sample said to hold one read: the
    aggregation completes with the mass -1 under Dark_Matter. *)
Lemma negative_dark_matter :
  INR (List.length (reads overcounted)) = 2 /\
  exists a,
    aggregate overcounted (File "total_reads.txt" (Some 1)) = Ok a /\
    loc DarkMatter a = Some (-1).
Proof.
  split; [cbn; lra|].
  exists (masses overcounted 1).
  split; [apply aggregate_runs; counted|].
  rewrite loc_masses. cbn. f_equal. lra.
Qed.

Lemma dark_matter_mass_witness :
  (2 <= List.length (reads fully_assigned))%nat /\
  (2 <= List.length (taxa fully_assigned))%nat /\
  exists a,
    aggregate fully_assigned (File "total_reads.txt" (Some 5)) = Ok a /\
    loc DarkMatter a = Some (5 - INR (List.length (reads fully_assigned))).
Proof.
  assert (Hr : (2 <= List.length (reads fully_assigned))%nat) by counted.
  assert (Ht : (2 <= List.length (taxa fully_assigned))%nat) by counted.
  split; [exact Hr|]. split; [exact Ht|].
  exact (dark_matter_mass "total_reads.txt" fully_assigned 5 Hr Ht).
Defined.

(** Taxon B is in the assignment table and has no p-value: the script
    stops with a KeyError on B, whatever the quantile function. *)
Lemma missing_pvalues_raise :
  exists t,
    In t (map Taxon three_taxa) /\ ~ pseudo t /\
    pvalues_of t pvalues_without_B = [] /\
    forall beta_ppf,
      calculate_dirichlet_abundances beta_ppf
        (File "assignments.csv" (Some three_taxa))
        (File "pvalues.tsv" (Some pvalues_without_B))
        (File "total_reads.txt" (Some 3))
      = Raise (KeyError t).
Proof.
  exists "B".
  split; [cbn; tauto|].
  split; [unfold pseudo; intuition discriminate|].
  split; [reflexivity|].
  intros beta_ppf.
  destruct (script_key_error beta_ppf "assignments.csv" "pvalues.tsv"
              "total_reads.txt" three_taxa pvalues_without_B 3)
    as [t [Hin [_ [Hns Hr]]]].
  - well_formed_input.
  - exists "B". split; [cbn; tauto|].
    split; [unfold pseudo|cbn]; intuition discriminate.
  - members Hin; try exact Hr; exfalso; apply Hns; cbn; tauto.
Qed.

Lemma significance_scores_witness :
  well_formed three_taxa pvalues_ABC 3 /\
  covered three_taxa pvalues_ABC /\
  forall beta_ppf,
  exists rows,
    calculate_dirichlet_abundances beta_ppf
      (File "assignments.csv" (Some three_taxa))
      (File "pvalues.tsv" (Some pvalues_ABC))
      (File "total_reads.txt" (Some 3)) = Ok rows /\
    (forall row, In row rows ->
       (pseudo (label row) -> Fisher_Exact_Pvalue row = None) /\
       (~ pseudo (label row) ->
          In (label row) (map species pvalues_ABC) /\
          Fisher_Exact_Pvalue row
          = Some (harmonic_mean (pvalues_of (label row) pvalues_ABC)))).
Proof.
  assert (Hwf : well_formed three_taxa pvalues_ABC 3) by well_formed_input.
  assert (Hcov : covered three_taxa pvalues_ABC) by covered_input.
  split; [exact Hwf|]. split; [exact Hcov|].
  intros beta_ppf.
  destruct (significance_scores beta_ppf "assignments.csv" "pvalues.tsv"
              "total_reads.txt" three_taxa pvalues_ABC 3 Hwf)
    as [Hok _].
  destruct (Hok Hcov) as [rows [H1 [_ H2]]].
  exists rows. split; [exact H1|exact H2].
Defined.

(** C10. There is a well-formed input, with a taxon named Grey_Matter and
    a taxon named Dark_Matter that each carry the whole weight of one read
    and have p-values of their own, on which the script completes with
    three rows only; the row labelled Grey_Matter reports the number of
    zero-weight reads (0) as its mass and NaN as its score, the row
    labelled Dark_Matter the number of reads without alignment (0) and
    NaN: the mass 1 and the harmonic means 0.01 and 0.02 of the two taxa
    are in no row. *)
Theorem pseudo_label_collision :
  well_formed colliding colliding_pvalues 3 /\
  covered colliding colliding_pvalues /\
  taxon_mass GreyMatter colliding = 1 /\
  taxon_mass DarkMatter colliding = 1 /\
  harmonic_mean (pvalues_of GreyMatter colliding_pvalues) = 1 / 100 /\
  harmonic_mean (pvalues_of DarkMatter colliding_pvalues) = 1 / 50 /\
  forall beta_ppf,
  exists rows,
    calculate_dirichlet_abundances beta_ppf
      (File "assignments.csv" (Some colliding))
      (File "pvalues.tsv" (Some colliding_pvalues))
      (File "total_reads.txt" (Some 3)) = Ok rows /\
    List.length rows = 3%nat /\
    (exists row, In row rows /\ label row = GreyMatter) /\
    (exists row, In row rows /\ label row = DarkMatter) /\
    (forall row, In row rows -> pseudo (label row) ->
       Dirichlet_Read_Num row = 0 /\ Fisher_Exact_Pvalue row = None).
Proof.
  assert (Hwf : well_formed colliding colliding_pvalues 3) by well_formed_input.
  assert (Hcov : covered colliding colliding_pvalues) by covered_input.
  split; [exact Hwf|]. split; [exact Hcov|].
  split; [cbn; lra|]. split; [cbn; lra|].
  split; [unfold harmonic_mean; cbn; field|].
  split; [unfold harmonic_mean; cbn; field|].
  intros beta_ppf. eexists. split; [now apply script_runs|].
  destruct (rows_by_label beta_ppf (masses colliding 3)
              (scores colliding_pvalues) (NoDup_index_masses colliding 3))
    as [Hrow [Hlab _]].
  split; [rewrite length_map, length_posterior_abundance_mean; counted|].
  split; [apply Hlab, In_index_masses; left; now right|].
  split; [apply Hlab, In_index_masses; left; now left|].
  intros row Hin Hp. destruct (Hrow row Hin) as [Hmass Hscore].
  destruct (score_of_label colliding_pvalues (label row)) as [Hps _].
  rewrite Hscore, (Hps Hp). split; [|reflexivity].
  rewrite loc_masses in Hmass.
  destruct Hp as [Hp|Hp]; rewrite Hp in Hmass; cbn in Hmass.
  - injection Hmass as <-. lra.
  - unfold zero_weight_reads in Hmass. cbn in Hmass.
    rewrite !is_zero_false in Hmass by lra. cbn in Hmass.
    injection Hmass as <-. reflexivity.
Qed.

End AbundanceFacts.

(* ================================================================== *)
(** * Sorting puts rows in order *)
(* ================================================================== *)

Module SortOrder.
Import PandasFacts.

Section Order.
Context {A : Type} (before : A -> A -> bool).
Hypothesis before_total : forall x y, before x y = true \/ before y x = true.

Lemma insert_sorted_HdRel (x a : A) (l : list A) :
  before a x = true ->
  HdRel (fun u v => before u v = true) a l ->
  HdRel (fun u v => before u v = true) a (insert_sorted before x l).
Proof.
  intros Hax Hal. destruct l as [|y l]; simpl.
  - now constructor.
  - destruct (before x y); constructor; [exact Hax|].
    inversion Hal; assumption.
Qed.

Lemma insert_sorted_Sorted (x : A) (l : list A) :
  Sorted (fun u v => before u v = true) l ->
  Sorted (fun u v => before u v = true) (insert_sorted before x l).
Proof.
  induction 1 as [|a l Hs IH Hhd]; simpl.
  - repeat constructor.
  - destruct (before x a) eqn:E.
    + constructor; [now constructor|now constructor].
    + constructor; [exact IH|].
      apply insert_sorted_HdRel; [|exact Hhd].
      destruct (before_total x a); congruence.
Qed.

Lemma sort_Sorted (l : list A) :
  Sorted (fun u v => before u v = true) (sort before l).
Proof.
  induction l as [|x l IH]; simpl; [constructor|].
  now apply insert_sorted_Sorted.
Qed.

Hypothesis before_trans :
  forall x y z, before x y = true -> before y z = true -> before x z = true.

Lemma sort_StronglySorted (l : list A) :
  StronglySorted (fun u v => before u v = true) (sort before l).
Proof.
  apply Sorted_StronglySorted; [|apply sort_Sorted].
  intros x y z. apply before_trans.
Qed.
End Order.

Lemma StronglySorted_members {A : Type} (P Q : A -> A -> Prop) (l : list A) :
  (forall x y, In x l -> In y l -> P x y -> Q x y) ->
  StronglySorted P l -> StronglySorted Q l.
Proof.
  intros H Hs. induction Hs as [|a l Hs IH Hall]; constructor.
  - apply IH. intros x y Hx Hy. apply H; now right.
  - rewrite Forall_forall in *. intros y Hy.
    apply H; [now left|now right|]. now apply Hall.
Qed.

Lemma StronglySorted_map {A B : Type} (f : A -> B) (P : B -> B -> Prop)
  (l : list A) :
  StronglySorted (fun x y => P (f x) (f y)) l -> StronglySorted P (map f l).
Proof.
  induction 1 as [|a l Hs IH Hall]; simpl; constructor; [exact IH|].
  rewrite Forall_forall in *. intros y Hy. apply in_map_iff in Hy.
  destruct Hy as [x [<- Hx]]. now apply Hall.
Qed.

Lemma desc_nan_last_total (x y : option R) :
  desc_nan_last x y = true \/ desc_nan_last y x = true.
Proof.
  destruct x as [a|], y as [b|]; simpl; auto.
  destruct (Rle_dec b a); [now left|].
  destruct (Rle_dec a b); [now right|]. lra.
Qed.

Lemma desc_nan_last_trans (x y z : option R) :
  desc_nan_last x y = true -> desc_nan_last y z = true ->
  desc_nan_last x z = true.
Proof.
  destruct x as [a|], y as [b|], z as [c|]; simpl; auto; try discriminate.
  destruct (Rle_dec b a); [|discriminate].
  destruct (Rle_dec c b); [|discriminate].
  destruct (Rle_dec c a); [reflexivity|lra].
Qed.

Lemma desc_nan_last_Some (a b : R) :
  desc_nan_last (Some a) (Some b) = true -> b <= a.
Proof. simpl. destruct (Rle_dec b a); [tauto|discriminate]. Qed.

End SortOrder.

(* ================================================================== *)
(** * Identification: further properties of the posteriors *)
(* ================================================================== *)

Module IdentificationExtras.
Import Identification IdentificationSpec ExtraSpec Examples.
Import PandasFacts GroupbyFacts IdentificationFacts SortOrder.








Lemma sum_ones {A : Type} (l : list A) :
  sum (map (fun _ => 1) l) = INR (List.length l).
Proof.
  induction l as [|x l IH]; [reflexivity|].
  cbn [map List.length]. rewrite S_INR, <- IH. simpl. lra.
Qed.

(** X3. Taxa with the same totals share the support equally: each of n such
    taxa has posterior 1/n, and a single taxon has posterior 1. *)
Theorem equal_totals_share_equally (p : model_params)
  (df : list mismatch_row) :
  0 < delta_t p -> 0 < delta_v p ->
  (forall r s, In r df -> In s df -> mTs r = mTs s /\ mTv r = mTv s) ->
  forall r, In r (sort_values (posterior_loop p df)) ->
    Posterior r = Some (1 / INR (List.length df)).
Proof.
  intros Ht Hv Heq r Hr.
  apply In_sorted_loop in Hr. destruct Hr as [r0 [Hr0 ->]].
  simpl. do 2 f_equal. unfold odds_sum.
  rewrite (map_ext_in _ (fun _ => 1)); [apply sum_ones|].
  intros s Hs. destruct (Heq r0 s Hr0 Hs) as [E1 E2].
  unfold odds_term. rewrite E1, E2, !Rminus_diag, !Rpower_O by assumption.
  lra.
Qed.


(** ** Totals are never below what was observed *)

Lemma NoDup_reads_of_taxon (t : string) (table : list ts_tv_row) :
  NoDup (alignments table) -> NoDup (map Read_ID (observed t table)).
Proof.
  unfold alignments, observed, rows_of, has_key.
  induction table as [|x table IH]; simpl; intros Hnd; [constructor|].
  inversion Hnd as [|? ? Hnotin Hnd']; subst.
  destruct (String.eqb_spec (Taxon x) t) as [Ht|Ht]; [|auto].
  simpl. constructor; [|auto].
  intros Hin. apply in_map_iff in Hin. destruct Hin as [y [Hy Hyin]].
  apply filter_In in Hyin. destruct Hyin as [Hyin Hyt].
  apply String.eqb_eq in Hyt. apply Hnotin. apply in_map_iff.
  exists y. split; [|exact Hyin]. now rewrite Hy, Hyt, Ht.
Qed.

Lemma observed_le_reads (t : string) (table : list ts_tv_row) :
  NoDup (alignments table) ->
  (List.length (observed t table) <= distinct_reads table)%nat.
Proof.
  intros Hnd. rewrite <- (length_map Read_ID). unfold distinct_reads.
  apply NoDup_incl_length; [now apply NoDup_reads_of_taxon|].
  intros r Hr. unfold unique. apply nodup_In.
  apply in_map_iff in Hr. destruct Hr as [x [<- Hx]].
  apply in_map. unfold observed, rows_of in Hx. apply filter_In in Hx. tauto.
Qed.

Lemma zsum_nonneg (l : list Z) :
  Forall (fun z => (0 <= z)%Z) l -> (0 <= zsum l)%Z.
Proof. induction 1; simpl; lia. Qed.

Lemma imputed_total_bounds (n_reads : nat) (missing : R) (counts : list Z) :
  Forall (fun z => (0 <= z)%Z) counts ->
  (List.length counts <= n_reads)%nat ->
  0 <= missing ->
  0 <= IZR (zsum counts) <= imputed_total n_reads missing counts.
Proof.
  intros Hc Hlen Hm. unfold imputed_total.
  apply zsum_nonneg in Hc. apply IZR_le in Hc. apply le_INR in Hlen.
  split; [exact Hc|].
  assert (0 <= (INR n_reads - INR (List.length counts)) * (missing + 1))
    by (apply Rmult_le_pos; lra).
  lra.
Qed.

(** X5. When no read is recorded twice for the same taxon and the counts and
    the two missing values are not negative, each total written out is at
    least the sum of the counts observed for its taxon, hence not
    negative. *)
Theorem totals_cover_observed (f1 f2 f3 : string) (table : list ts_tv_row)
  (p : model_params) (total : R) (sample_name submatrix : string) :
  NoDup (alignments table) ->
  Forall (fun x => (0 <= Ts x)%Z /\ (0 <= Tv x)%Z) table ->
  0 <= ts_missing_val p -> 0 <= tv_missing_val p ->
  exists out,
    calculate_probabilities (File f1 (Some table)) (File f2 (Some p))
      sample_name (File f3 (Some total)) submatrix = Ok out /\
    forall row, In row (appended out) ->
      0 <= IZR (zsum (map Ts (observed (mTaxon row) table))) <= mTs row /\
      0 <= IZR (zsum (map Tv (observed (mTaxon row) table))) <= mTv row.
Proof.
  intros Hnd Hc Hts Htv. rewrite calculate_probabilities_runs.
  eexists. split; [reflexivity|]. simpl. intros row Hrow.
  apply In_sorted_loop in Hrow. destruct Hrow as [r0 [Hr0 ->]].
  apply In_mismatch_frame in Hr0. destruct Hr0 as [t [_ ->]]. simpl.
  rewrite !agg_missing_imputed.
  assert (Hobs : forall x, In x (observed t table) ->
                           (0 <= Ts x)%Z /\ (0 <= Tv x)%Z).
  { intros x Hx. unfold observed, rows_of in Hx. apply filter_In in Hx.
    rewrite Forall_forall in Hc. apply Hc. tauto. }
  split; apply imputed_total_bounds; try assumption;
    try (rewrite length_map; now apply observed_le_reads);
    apply Forall_forall; intros z Hz; apply in_map_iff in Hz;
    destruct Hz as [x [<- Hx]]; now apply Hobs.
Qed.

(** ** The theorems at sample inputs *)



Lemma equal_totals_share_equally_witness :
  0 < delta_t two_taxa_params /\ 0 < delta_v two_taxa_params /\
  (forall r,
     In r (sort_values (posterior_loop two_taxa_params twin_totals)) ->
     Posterior r = Some (1 / INR 2)).
Proof.
  assert (Ht : 0 < delta_t two_taxa_params) by (simpl; lra).
  assert (Hv : 0 < delta_v two_taxa_params) by (simpl; lra).
  split; [exact Ht|]. split; [exact Hv|].
  apply (equal_totals_share_equally two_taxa_params twin_totals Ht Hv).
  intros r s Hr Hs.
  destruct Hr as [<-|[<-|[]]]; destruct Hs as [<-|[<-|[]]]; simpl; lra.
Defined.

Lemma totals_cover_observed_witness :
  NoDup (alignments small_counts) /\
  exists out,
    calculate_probabilities (File "ts_tv.csv" (Some small_counts))
      (File "params.json" (Some two_taxa_params)) "sample"
      (File "total.count" (Some 100)) "all taxa" = Ok out /\
    forall row, In row (appended out) ->
      0 <= IZR (zsum (map Ts (observed (mTaxon row) small_counts)))
        <= mTs row /\
      0 <= IZR (zsum (map Tv (observed (mTaxon row) small_counts)))
        <= mTv row.
Proof.
  assert (Hnd : NoDup (alignments small_counts)).
  { cbn. repeat constructor; cbn; intuition discriminate. }
  split; [exact Hnd|].
  apply (totals_cover_observed "ts_tv.csv" "params.json" "total.count"
           small_counts two_taxa_params 100 "sample" "all taxa" Hnd).
  - repeat constructor; cbn; lia.
  - simpl. lra.
  - simpl. lra.
Defined.

End IdentificationExtras.

(* ================================================================== *)
(** * Abundance: further properties of the script *)
(* ================================================================== *)

Module AbundanceExtras.
Import Abundance AbundanceSpec ExtraSpec Examples.
Import PandasFacts GroupbyFacts AbundanceFacts SortOrder.

(** X6. The chain [where(== 0).replace(0, 1).fillna(0).sum()] counts: whenever
    the aggregation runs, the mass under Grey_Matter is the number of
    reads whose weights sum to exactly 0. *)
Theorem grey_matter_mass (f : string) (table : list assignment_row)
  (total : R) :
  (2 <= List.length (reads table))%nat ->
  (2 <= List.length (taxa table))%nat ->
  exists a,
    aggregate table (File f (Some total)) = Ok a /\
    loc GreyMatter a = Some (INR (List.length (zero_weight_reads table))).
Proof.
  intros Hr Ht. exists (masses table total).
  split; [now apply aggregate_runs|].
  rewrite loc_masses.
  destruct (string_dec GreyMatter DarkMatter) as [E|_]; [discriminate E|].
  destruct (string_dec GreyMatter GreyMatter); congruence.
Qed.

Lemma squeeze_single {V : Type} (s : series V) :
  List.length s = 1%nat -> exists v, squeeze s = Scalar v.
Proof.
  destruct s as [|[k v] [|kv s]]; simpl; intros H; try discriminate.
  now exists v.
Qed.

Lemma squeeze_several {V : Type} (s : series V) :
  List.length s <> 1%nat -> squeeze s = Column s.
Proof.
  destruct s as [|[k v] [|kv s]]; simpl; intros H; try reflexivity.
  congruence.
Qed.

(** X7. A table with a single read, or with a single taxon, stops the
    aggregation: [squeeze] has turned the grouped sums into a scalar,
    which has neither [where] nor [loc]. *)
Theorem single_read_or_taxon_fails (table : list assignment_row)
  (total_file : file R) :
  List.length (reads table) = 1%nat \/ List.length (taxa table) = 1%nat ->
  exists attr,
    (attr = "where" \/ attr = "loc") /\
    aggregate table total_file
    = Raise (AttributeError
               ("'numpy.float64' object has no attribute '" ++ attr ++ "'")%string).
Proof.
  intros H. unfold aggregate.
  destruct (Nat.eq_dec (List.length (reads table)) 1) as [Hr|Hr].
  - exists "where". split; [now left|].
    destruct (squeeze_single
                (groupby_sum Read_ID Dirichlet_Assignment table)) as [v Ev].
    { rewrite length_groupby_sum. exact Hr. }
    rewrite Ev. reflexivity.
  - destruct H as [H|Ht]; [contradiction|].
    exists "loc". split; [now right|].
    rewrite squeeze_several by (rewrite length_groupby_sum; exact Hr).
    destruct (squeeze_single
                (groupby_sum Taxon Dirichlet_Assignment table)) as [v Ev].
    { rewrite length_groupby_sum. exact Ht. }
    simpl. rewrite Ev. reflexivity.
Qed.

Lemma single_read_or_taxon_fails_witness :
  List.length (reads one_read) = 1%nat /\
  exists attr,
    (attr = "where" \/ attr = "loc") /\
    aggregate one_read (File "total_reads.txt" (Some 1))
    = Raise (AttributeError
               ("'numpy.float64' object has no attribute '" ++ attr ++ "'")%string).
Proof.
  assert (H : List.length (reads one_read) = 1%nat) by reflexivity.
  split; [exact H|].
  exact (single_read_or_taxon_fails one_read
           (File "total_reads.txt" (Some 1)) (or_introl H)).
Defined.

Lemma grey_matter_mass_witness :
  (2 <= List.length (reads fully_assigned))%nat /\
  (2 <= List.length (taxa fully_assigned))%nat /\
  exists a,
    aggregate fully_assigned (File "total_reads.txt" (Some 5)) = Ok a /\
    loc GreyMatter a
    = Some (INR (List.length (zero_weight_reads fully_assigned))).
Proof.
  assert (Hr : (2 <= List.length (reads fully_assigned))%nat)
    by (vm_compute; lia).
  assert (Ht : (2 <= List.length (taxa fully_assigned))%nat)
    by (vm_compute; lia).
  split; [exact Hr|]. split; [exact Ht|].
  exact (grey_matter_mass "total_reads.txt" fully_assigned 5 Hr Ht).
Defined.

(** ** The mean abundances *)

Lemma sum_smoothed (c : R) (a : series R) :
  sum (map (fun kv => (snd kv + 1) / c) a)
  = (sum (values a) + INR (List.length a)) / c.
Proof.
  unfold values. induction a as [|[k v] a IH].
  - simpl. unfold Rdiv. lra.
  - cbn [map List.length sum fold_right snd]. rewrite S_INR.
    change (fold_right Rplus 0 (map (fun kv => (snd kv + 1) / c) a))
      with (sum (map (fun kv => (snd kv + 1) / c) a)).
    change (fold_right Rplus 0 (map snd a)) with (sum (map snd a)).
    rewrite IH. unfold Rdiv. lra.
Qed.

Lemma smoothing_total_pos (a : series R) :
  Forall (fun v => 0 <= v) (values a) ->
  (2 <= List.length a)%nat ->
  0 < sum (values a) + INR (List.length a).
Proof.
  intros Hnn Hlen. apply sum_nonneg in Hnn.
  apply le_INR in Hlen. simpl in Hlen. lra.
Qed.

Section EstimatorExtras.
Variable beta_ppf : R -> R -> R -> R.

Lemma means_of_rows (a : series R) (t_test_vector : series (option R)) :
  map Mean_Posterior_Abundance
    (map (filled_row beta_ppf a t_test_vector) (posterior_abundance_mean a))
  = map snd (posterior_abundance_mean a).
Proof. rewrite map_map. reflexivity. Qed.

(** X8. On a vector of at least two masses, none negative, with a score for
    every label, the mean abundances written out lie strictly between 0
    and 1 and sum to 1. *)
Theorem mean_abundances_distribution (a : series R)
  (t_test_vector : series (option R)) :
  NoDup (index a) ->
  Forall (fun v => 0 <= v) (values a) ->
  (2 <= List.length a)%nat ->
  (forall l, In l (index a) -> In l (index t_test_vector)) ->
  exists rows,
    estimate beta_ppf a t_test_vector = Ok rows /\
    sum (map Mean_Posterior_Abundance rows) = 1 /\
    (forall row, In row rows -> 0 < Mean_Posterior_Abundance row < 1).
Proof.
  intros Hnd Hnn Hlen Hcov.
  pose proof (smoothing_total_pos a Hnn Hlen) as Hpos.
  eexists. split; [|split].
  - apply estimate_runs; try assumption.
    intros l Hl Hnone. apply loc_None in Hnone. apply Hnone. now apply Hcov.
  - rewrite means_of_rows. unfold posterior_abundance_mean.
    rewrite (sum_Permutation _ _
               (Permutation_map snd (sort_Permutation _ _))).
    rewrite map_map. simpl. rewrite sum_smoothed. field. lra.
  - intros row Hrow. apply in_map_iff in Hrow. destruct Hrow as [r [<- Hr]].
    apply In_posterior_abundance_mean in Hr.
    destruct Hr as [l [ai [Hin ->]]]. simpl.
    destruct (beta_shapes_positive a l ai Hnn Hlen Hin) as [Hal Hbe].
    split.
    + apply Rdiv_lt_0_compat; assumption.
    + apply Rmult_lt_reg_r with (sum (values a) + INR (List.length a));
        [exact Hpos|].
      unfold Rdiv. rewrite Rmult_assoc, Rinv_l by lra. lra.
Qed.

(** X9. On the same inputs the rows are written in descending order of mean
    abundance. *)
Theorem abundances_descending (a : series R)
  (t_test_vector : series (option R)) :
  NoDup (index a) ->
  Forall (fun v => 0 <= v) (values a) ->
  (2 <= List.length a)%nat ->
  (forall l, In l (index a) -> In l (index t_test_vector)) ->
  exists rows,
    estimate beta_ppf a t_test_vector = Ok rows /\
    List.length rows = List.length a /\
    StronglySorted abundance_ge rows.
Proof.
  intros Hnd Hnn Hlen Hcov. eexists. split; [|split].
  - apply estimate_runs; try assumption.
    intros l Hl Hnone. apply loc_None in Hnone. apply Hnone. now apply Hcov.
  - now rewrite length_map, length_posterior_abundance_mean.
  - apply StronglySorted_map. unfold abundance_ge. simpl.
    apply (StronglySorted_members
             (fun x y : string * R =>
                desc_nan_last (Some (snd x)) (Some (snd y)) = true)).
    + intros x y _ _ H. now apply desc_nan_last_Some.
    + unfold posterior_abundance_mean.
      apply (sort_StronglySorted
               (fun x y : string * R =>
                  desc_nan_last (Some (snd x)) (Some (snd y)))).
      * intros x y. apply desc_nan_last_total.
      * intros x y z. apply desc_nan_last_trans.
Qed.

(** ** Failed assertions *)









End EstimatorExtras.

Lemma mean_abundances_distribution_witness :
  NoDup (index sample_masses) /\
  Forall (fun v => 0 <= v) (values sample_masses) /\
  forall beta_ppf,
  exists rows,
    estimate beta_ppf sample_masses sample_scores = Ok rows /\
    sum (map Mean_Posterior_Abundance rows) = 1 /\
    (forall row, In row rows -> 0 < Mean_Posterior_Abundance row < 1).
Proof.
  assert (Hnd : NoDup (index sample_masses)).
  { cbn. repeat constructor; cbn; intuition discriminate. }
  assert (Hnn : Forall (fun v => 0 <= v) (values sample_masses)).
  { repeat constructor; simpl; lra. }
  assert (Hlen : (2 <= List.length sample_masses)%nat) by (simpl; lia).
  split; [exact Hnd|]. split; [exact Hnn|]. intros beta_ppf.
  apply (mean_abundances_distribution beta_ppf sample_masses sample_scores
           Hnd Hnn Hlen).
  intros l Hl. cbn in Hl |- *. tauto.
Defined.

Lemma abundances_descending_witness :
  (2 <= List.length sample_masses)%nat /\
  forall beta_ppf,
  exists rows,
    estimate beta_ppf sample_masses sample_scores = Ok rows /\
    List.length rows = List.length sample_masses /\
    StronglySorted abundance_ge rows.
Proof.
  assert (Hnd : NoDup (index sample_masses)).
  { cbn. repeat constructor; cbn; intuition discriminate. }
  assert (Hnn : Forall (fun v => 0 <= v) (values sample_masses)).
  { repeat constructor; simpl; lra. }
  assert (Hlen : (2 <= List.length sample_masses)%nat) by (simpl; lia).
  split; [exact Hlen|]. intros beta_ppf.
  apply (abundances_descending beta_ppf sample_masses sample_scores
           Hnd Hnn Hlen).
  intros l Hl. cbn in Hl |- *. tauto.
Defined.

(** X17. On a well-formed input in which every taxon has p-values or
    bears the name of an extra category, the script writes exactly one row
    per label, and the row of a taxon that is not so named carries as
    Dirichlet read number the sum of the assignment weights of that taxon
    over all reads. *)
Theorem taxon_rows_carry_mass (beta_ppf : R -> R -> R -> R)
  (f1 f2 f3 : string) (table : list assignment_row)
  (pvalues : list pvalue_row) (total : R) :
  well_formed table pvalues total ->
  covered table pvalues ->
  exists rows,
    calculate_dirichlet_abundances beta_ppf (File f1 (Some table))
      (File f2 (Some pvalues)) (File f3 (Some total)) = Ok rows /\
    (forall r1 r2, In r1 rows -> In r2 rows -> label r1 = label r2 -> r1 = r2) /\
    (forall t, In t (map Taxon table) -> ~ pseudo t ->
       exists row, In row rows /\ label row = t /\
         Dirichlet_Read_Num row = taxon_mass t table).
Proof.
  intros Hwf Hcov. eexists. split; [now apply script_runs|].
  destruct (rows_by_label beta_ppf (masses table total) (scores pvalues)
              (NoDup_index_masses table total)) as [Hrow [Hlab Huniq]].
  split; [exact Huniq|].
  intros t Ht Hnp.
  destruct (Hlab t) as [row [Hin Hl]]; [apply In_index_masses; now right|].
  exists row. split; [exact Hin|]. split; [exact Hl|].
  destruct (Hrow row Hin) as [Hmass _]. rewrite Hl, loc_masses in Hmass.
  destruct (not_pseudo t Hnp) as [Hg Hd].
  destruct (string_dec t DarkMatter); [contradiction|].
  destruct (string_dec t GreyMatter); [contradiction|].
  apply (existsb_has_key Taxon) in Ht. rewrite Ht in Hmass.
  now injection Hmass as <-.
Qed.

Lemma taxon_rows_carry_mass_witness :
  well_formed three_taxa pvalues_ABC 3 /\
  covered three_taxa pvalues_ABC /\
  forall beta_ppf,
  exists rows,
    calculate_dirichlet_abundances beta_ppf
      (File "assignments.csv" (Some three_taxa))
      (File "pvalues.tsv" (Some pvalues_ABC))
      (File "total_reads.txt" (Some 3)) = Ok rows /\
    (forall t, In t (map Taxon three_taxa) -> ~ pseudo t ->
       exists row, In row rows /\ label row = t /\
         Dirichlet_Read_Num row = taxon_mass t three_taxa).
Proof.
  assert (Hwf : well_formed three_taxa pvalues_ABC 3).
  { constructor.
    - vm_compute; lia.
    - vm_compute; lia.
    - vm_compute; lia.
    - apply Forall_forall. intros x H. cbn in H.
      destruct H as [<-|[<-|[<-|[]]]]; cbn; lra.
    - apply Forall_forall. intros x H. cbn in H.
      destruct H as [<-|[<-|[<-|[]]]]; cbn; lra.
    - unfold consistent_counts. cbn. lra. }
  assert (Hcov : covered three_taxa pvalues_ABC).
  { intros t H. cbn in H. destruct H as [<-|[<-|[<-|[]]]]; right; cbn; tauto. }
  split; [exact Hwf|]. split; [exact Hcov|]. intros beta_ppf.
  destruct (taxon_rows_carry_mass beta_ppf "assignments.csv" "pvalues.tsv"
              "total_reads.txt" three_taxa pvalues_ABC 3 Hwf Hcov)
    as [rows [E [_ H]]].
  exists rows. split; [exact E|exact H].
Defined.

Lemma deficit_stops_in_round_witness :
  covered overcounted pvalues_AB /\
  1 + 1 <= INR (List.length (reads overcounted)) /\
  forall beta_ppf,
    calculate_dirichlet_abundances beta_ppf
      (File "assignments.csv" (Some overcounted))
      (File "pvalues.tsv" (Some pvalues_AB))
      (File "total_reads.txt" (Some 1))
    = Raise (ValueError "cannot convert float NaN to integer").
Proof.
  assert (Hcov : covered overcounted pvalues_AB).
  { intros t H. cbn in H. destruct H as [<-|[<-|[]]]; right; cbn; tauto. }
  assert (Hdef : 1 + 1 <= INR (List.length (reads overcounted)))
    by (cbn; lra).
  split; [exact Hcov|]. split; [exact Hdef|]. intros beta_ppf.
  apply (deficit_stops_in_round beta_ppf "assignments.csv" "pvalues.tsv"
           "total_reads.txt" overcounted pvalues_AB 1).
  - vm_compute; lia.
  - vm_compute; lia.
  - vm_compute; lia.
  - apply Forall_forall. intros x H. cbn in H.
    destruct H as [<-|[<-|[]]]; cbn; lra.
  - exact Hcov.
  - exact Hdef.
Defined.

End AbundanceExtras.

(* ================================================================== *)
(** * utilities.py: chunks and names *)
(* ================================================================== *)

Module UtilitiesFacts.
Import Utilities.

(** ** [chunker] *)

Lemma firstn_then_firstn {A : Type} (a b : nat) (l : list A) :
  firstn a l ++ firstn b (skipn a l) = firstn (a + b) l.
Proof.
  revert l. induction a as [|a IH]; intros l; simpl.
  - reflexivity.
  - destruct l as [|x l]; simpl.
    + now rewrite firstn_nil.
    + now rewrite IH.
Qed.

Lemma concat_slices {A : Type} (s : nat) (l : list A) (k : nat) :
  List.concat (map (fun pos => firstn s (skipn pos l))
                   (map (fun i => (i * s)%nat) (seq 0 k)))
  = firstn (k * s) l.
Proof.
  induction k as [|k IH].
  - reflexivity.
  - rewrite seq_S, !map_app, concat_app, IH. simpl.
    rewrite app_nil_r, firstn_then_firstn. f_equal. lia.
Qed.

Lemma range_step_cover (n s : nat) :
  (0 < s)%nat ->
  let k := ((n + s - 1) / s)%nat in
  (n <= k * s)%nat /\ (k * s < n + s)%nat.
Proof.
  intros Hs k.
  pose proof (Nat.div_mod_eq (n + s - 1) s) as E.
  pose proof (Nat.mod_upper_bound (n + s - 1) s ltac:(lia)) as U.
  fold k in E. nia.
Qed.

(** X11. For a positive size the chunks, put end to end, give the sequence
    back; none is empty or longer than [size], and all but the last have
    exactly [size] elements. *)
Theorem chunker_partitions {A : Type} (l : list A) (size : Z) :
  (0 < size)%Z ->
  exists chunks,
    chunker l size = Ok chunks /\
    List.concat chunks = l /\
    Forall (fun c => (1 <= List.length c <= Z.to_nat size)%nat) chunks /\
    (forall i c, nth_error chunks i = Some c ->
       (S i < List.length chunks)%nat -> List.length c = Z.to_nat size).
Proof.
  intros Hsize. unfold chunker.
  destruct (Z.eqb_spec size 0) as [E|_]; [lia|].
  destruct (Z.ltb_spec size 0) as [E|_]; [lia|].
  set (s := Z.to_nat size). assert (Hs : (0 < s)%nat) by (unfold s; lia).
  unfold range_step.
  destruct (range_step_cover (List.length l) s Hs) as [Hlo Hhi].
  set (k := ((List.length l + s - 1) / s)%nat) in *.
  eexists. split; [reflexivity|]. split; [|split].
  - rewrite concat_slices. now apply firstn_all2.
  - apply Forall_forall. intros c Hc. rewrite map_map in Hc.
    apply in_map_iff in Hc. destruct Hc as [i [<- Hi]].
    apply in_seq in Hi. rewrite length_firstn, length_skipn. nia.
  - intros i c Hnth Hlast. rewrite !length_map, length_seq in Hlast.
    rewrite map_map, nth_error_map in Hnth.
    destruct (nth_error (seq 0 k) i) as [j|] eqn:Ej; [|discriminate].
    injection Hnth as <-.
    assert (j = i).
    { apply nth_error_nth with (d := 0%nat) in Ej.
      rewrite seq_nth in Ej by lia. lia. }
    subst j. rewrite length_firstn, length_skipn. nia.
Qed.

Lemma chunker_partitions_witness :
  (0 < 2)%Z /\
  exists chunks,
    chunker [1; 2; 3; 4; 5]%nat 2 = Ok chunks /\
    List.concat chunks = [1; 2; 3; 4; 5]%nat /\
    List.length chunks = 3%nat.
Proof.
  assert (H : (0 < 2)%Z) by lia. split; [exact H|].
  destruct (chunker_partitions [1; 2; 3; 4; 5]%nat 2 H)
    as [chunks [E [Hc _]]].
  exists chunks. split; [exact E|]. split; [exact Hc|].
  vm_compute in E. injection E as <-. reflexivity.
Defined.

(** ** [normalise_name] *)

Lemma chars_append (s1 s2 : string) :
  chars (s1 ++ s2)%string = chars s1 ++ chars s2.
Proof.
  unfold chars. induction s1 as [|c s1 IH]; simpl; [reflexivity|].
  now rewrite IH.
Qed.

(** [replace] works character by character. *)
Lemma chars_replace (old : ascii) (new s : string) :
  chars (replace old new s)
  = flat_map (fun c => if Ascii.eqb c old then chars new else [c]) (chars s).
Proof.
  induction s as [|c s IH]; [reflexivity|].
  cbn [replace]. change (chars (String c s)) with (c :: chars s).
  cbn [flat_map]. destruct (Ascii.eqb c old).
  - now rewrite chars_append, IH.
  - change (chars (String c (replace old new s)))
      with (c :: chars (replace old new s)).
    now rewrite IH.
Qed.

Lemma In_chars_replace (old : ascii) (new s : string) (c : ascii) :
  In c (chars (replace old new s)) ->
  (c <> old /\ In c (chars s)) \/ In c (chars new).
Proof.
  rewrite chars_replace, in_flat_map. intros [d [Hd Hc]].
  destruct (Ascii.eqb_spec d old) as [->|Hne].
  - now right.
  - destruct Hc as [<-|[]]. left. tauto.
Qed.

Lemma replace_absent (old : ascii) (new s : string) :
  ~ In old (chars s) -> replace old new s = s.
Proof.
  induction s as [|c s IH]; [reflexivity|].
  change (chars (String c s)) with (c :: chars s). simpl. intros H.
  destruct (Ascii.eqb_spec c old) as [->|Hne]; [tauto|].
  rewrite IH; tauto.
Qed.

Lemma normalise_name_clean (taxon : string) (c : ascii) :
  In c (chars (normalise_name taxon)) -> ~ unwanted c.
Proof.
  unfold normalise_name, unwanted. intros H.
  apply In_chars_replace in H. destruct H as [[H4 H]|H].
  - apply In_chars_replace in H. destruct H as [[H3 H]|[]].
    apply In_chars_replace in H. destruct H as [[H2 H]|[]].
    apply In_chars_replace in H. destruct H as [[H1 H]|H].
    + tauto.
    + destruct H as [<-|[]]. intuition discriminate.
  - destruct H as [<-|[]]. intuition discriminate.
Qed.

(** X12. The name returned holds no blank, no square bracket and no slash;
    normalising it again changes nothing, and a name without these
    characters is returned as it is. *)
Theorem normalise_name_normal (taxon : string) :
  (forall c, In c (chars (normalise_name taxon)) -> ~ unwanted c) /\
  normalise_name (normalise_name taxon) = normalise_name taxon /\
  ((forall c, In c (chars taxon) -> ~ unwanted c) ->
   normalise_name taxon = taxon).
Proof.
  assert (Hfix : forall s, (forall c, In c (chars s) -> ~ unwanted c) ->
                           normalise_name s = s).
  { intros s Hs. unfold normalise_name.
    rewrite (replace_absent " " "_" s)
      by (intros H; apply (Hs _ H); unfold unwanted; tauto).
    rewrite (replace_absent "[" EmptyString s)
      by (intros H; apply (Hs _ H); unfold unwanted; tauto).
    rewrite (replace_absent "]" EmptyString s)
      by (intros H; apply (Hs _ H); unfold unwanted; tauto).
    apply replace_absent. intros H. apply (Hs _ H). unfold unwanted. tauto. }
  split; [apply normalise_name_clean|].
  split; [|apply Hfix].
  apply Hfix. apply normalise_name_clean.
Qed.

End UtilitiesFacts.

(* ================================================================== *)
(** * calculate_bt2_idx_chunks.py: the number of chunks *)
(* ================================================================== *)

Module Bt2ChunksFacts.
Import Bt2Chunks ExtraSpec PandasFacts.

Lemma file_size_nonneg (f : fasta) : 0 <= file_size f.
Proof.
  unfold file_size. apply Rmult_le_pos; [|lra].
  apply IZR_le. lia.
Qed.

Lemma total_size_nonneg (files : list fasta) : 0 <= total_size files.
Proof.
  unfold total_size. apply sum_nonneg, Forall_forall.
  intros x Hx. apply in_map_iff in Hx. destruct Hx as [f [<- _]].
  apply file_size_nonneg.
Qed.

(** The loop stops at the first file that is as large as the memory. *)
Lemma count_chunks_too_big (mem chunk_size : R) (before : list fasta)
  (f : fasta) (after : list fasta) :
  (forall g, In g before -> file_size g < mem) ->
  mem <= file_size f ->
  forall total chunks,
    count_chunks mem chunk_size (before ++ f :: after) total chunks
    = inl (RuntimeError (too_big (fasta_path f))).
Proof.
  intros Hbefore Hf. induction before as [|g before IH]; intros total chunks.
  - simpl. destruct (Rle_dec mem (file_size f)); [reflexivity|contradiction].
  - simpl. assert (Hg : file_size g < mem) by (apply Hbefore; now left).
    destruct (Rle_dec mem (file_size g)); [lra|].
    destruct (Rle_dec chunk_size (total + file_size g));
      apply IH; intros h Hh; apply Hbefore; now right.
Qed.

(** X13. A fasta file as large as the memory given stops the script with a
    RuntimeError that names the first such file. *)
Theorem oversized_fasta_refused (mem_resources mem_rescale_factor : R)
  (before : list fasta) (f : fasta) (after : list fasta) :
  mem_rescale_factor <> 0 ->
  (forall g, In g before -> file_size g < mem_resources) ->
  mem_resources <= file_size f ->
  calculate_bt2_idx_chunks mem_resources mem_rescale_factor
    (before ++ f :: after)
  = inl (RuntimeError (too_big (fasta_path f))).
Proof.
  intros Hz Hbefore Hf. unfold calculate_bt2_idx_chunks.
  destruct (Req_dec_T mem_rescale_factor 0); [contradiction|].
  now apply count_chunks_too_big.
Qed.

Lemma count_chunks_bounds (mem chunk_size : R) (files : list fasta) :
  (forall g, In g files -> file_size g < mem) ->
  forall total chunks, 0 <= total ->
  exists c,
    count_chunks mem chunk_size files total chunks = inr c /\
    (chunks <= c <= chunks + List.length files)%nat /\
    (total + total_size files < chunk_size -> c = chunks) /\
    ((forall g, In g files -> chunk_size <= file_size g) ->
     c = (chunks + List.length files)%nat).
Proof.
  induction files as [|f files IH]; intros Hsmall total chunks Htotal.
  - exists chunks. simpl. repeat split; lia.
  - assert (Hf : file_size f < mem) by (apply Hsmall; now left).
    assert (Hrest : forall g, In g files -> file_size g < mem)
      by (intros g Hg; apply Hsmall; now right).
    pose proof (file_size_nonneg f) as Hf0.
    pose proof (total_size_nonneg files) as Hfs0.
    simpl. destruct (Rle_dec mem (file_size f)); [lra|].
    destruct (Rle_dec chunk_size (total + file_size f)) as [Hfull|Hroom].
    + destruct (IH Hrest (file_size f) (S chunks) Hf0)
        as [c [E [Hb [_ Hall]]]].
      exists c. split; [exact E|]. split; [lia|]. split.
      * unfold total_size. simpl. fold (total_size files). intros H. lra.
      * intros Hbig. rewrite Hall by (intros g Hg; apply Hbig; now right).
        lia.
    + destruct (IH Hrest (total + file_size f) chunks ltac:(lra))
        as [c [E [Hb [Hfit _]]]].
      exists c. split; [exact E|]. split; [lia|]. split.
      * unfold total_size. simpl. fold (total_size files). intros H.
        apply Hfit. lra.
      * intros Hbig. exfalso. apply Hroom.
        specialize (Hbig f (or_introl eq_refl)). lra.
Qed.

(** X14. When every fasta file is smaller than the memory, the script
    prints a number of chunks between 1 and the number of files plus 1: it
    is 1 when all the files together stay below the chunk size, and it is
    the number of files plus 1 when every file reaches the chunk size. *)
Theorem chunks_within_bounds (mem_resources mem_rescale_factor : R)
  (files : list fasta) :
  mem_rescale_factor <> 0 ->
  (forall g, In g files -> file_size g < mem_resources) ->
  exists chunks,
    calculate_bt2_idx_chunks mem_resources mem_rescale_factor files
    = inr chunks /\
    (1 <= chunks <= List.length files + 1)%nat /\
    (total_size files < mem_resources / mem_rescale_factor -> chunks = 1%nat) /\
    ((forall g, In g files ->
        mem_resources / mem_rescale_factor <= file_size g) ->
     chunks = (List.length files + 1)%nat).
Proof.
  intros Hz Hsmall. unfold calculate_bt2_idx_chunks.
  destruct (Req_dec_T mem_rescale_factor 0); [contradiction|].
  destruct (count_chunks_bounds mem_resources
              (mem_resources / mem_rescale_factor) files Hsmall 0 1
              ltac:(lra)) as [c [E [Hb [Hfit Hall]]]].
  exists c. split; [exact E|]. split; [lia|]. split.
  - intros H. apply Hfit. lra.
  - intros H. rewrite (Hall H). lia.
Qed.

Lemma count_chunks_old_bounds (mem scaling : R) (files : list fasta) :
  scaling <> 0 ->
  forall total chunk_num, 0 <= total ->
  exists c,
    count_chunks_old mem scaling files total chunk_num = inr c /\
    (chunk_num <= c <= chunk_num + List.length files)%nat /\
    (total + total_size files <= mem / scaling -> c = chunk_num).
Proof.
  intros Hz. induction files as [|f files IH]; intros total chunk_num Htotal.
  - exists chunk_num. simpl. repeat split; lia.
  - pose proof (file_size_nonneg f) as Hf0.
    pose proof (total_size_nonneg files) as Hfs0.
    simpl. destruct (Req_dec_T scaling 0); [contradiction|].
    destruct (Rle_dec (total + file_size f) (mem / scaling)) as [Hroom|Hfull].
    + destruct (IH (total + file_size f) chunk_num ltac:(lra))
        as [c [E [Hb Hfit]]].
      exists c. split; [exact E|]. split; [lia|].
      unfold total_size. simpl. fold (total_size files). intros H.
      apply Hfit. lra.
    + destruct (IH (0 + file_size f) (S chunk_num) ltac:(lra))
        as [c [E [Hb _]]].
      exists c. split; [exact E|]. split; [lia|].
      unfold total_size. simpl. fold (total_size files). intros H. lra.
Qed.

(** X15. The older script never refuses a file: with a scaling factor that
    is not 0 it prints a number of chunks between 1 and the number of
    files plus 1, and 1 when all the files together fit the limit; a
    memory of 0 stands for the memory of the machine. *)
Theorem old_chunks_within_bounds (MAX_MEM_MB : R)
  (mem_resources mem_rescaling_factor : R) (files : list fasta) :
  mem_rescaling_factor <> 0 ->
  let limit :=
    (if Req_dec_T mem_resources 0 then MAX_MEM_MB else mem_resources)
    / mem_rescaling_factor in
  exists chunks,
    calculate_bt2_idx_chunks_old MAX_MEM_MB mem_resources
      mem_rescaling_factor files = inr chunks /\
    (1 <= chunks <= List.length files + 1)%nat /\
    (total_size files <= limit -> chunks = 1%nat).
Proof.
  intros Hz limit. unfold calculate_bt2_idx_chunks_old.
  destruct (count_chunks_old_bounds
              (if Req_dec_T mem_resources 0 then MAX_MEM_MB else mem_resources)
              mem_rescaling_factor files Hz 0 1 ltac:(lra))
    as [c [E [Hb Hfit]]].
  exists c. split; [exact E|]. split; [lia|].
  intros H. apply Hfit. unfold limit in H. lra.
Qed.

(** ** The theorems at sample inputs *)

Ltac sizes := unfold file_size; simpl; lra.

Lemma oversized_fasta_refused_witness :
  calculate_bt2_idx_chunks 2 1 three_fastas
  = inl (RuntimeError (too_big "b.fasta")).
Proof.
  apply (oversized_fasta_refused 2 1 [Fasta "a.fasta" 1048576]
           (Fasta "b.fasta" 2097152) [Fasta "c.fasta" 1048576]).
  - lra.
  - intros g [<-|[]]. sizes.
  - sizes.
Defined.

Lemma chunks_within_bounds_witness :
  total_size three_fastas < 10 / 2 /\
  exists chunks,
    calculate_bt2_idx_chunks 10 2 three_fastas = inr chunks /\
    chunks = 1%nat.
Proof.
  assert (Hfit : total_size three_fastas < 10 / 2).
  { unfold total_size, file_size. simpl. lra. }
  split; [exact Hfit|].
  destruct (chunks_within_bounds 10 2 three_fastas) as [c [E [_ [H1 _]]]].
  - lra.
  - intros g [<-|[<-|[<-|[]]]]; sizes.
  - exists c. split; [exact E|exact (H1 Hfit)].
Defined.

Lemma old_chunks_within_bounds_witness :
  exists chunks,
    calculate_bt2_idx_chunks_old 16384 0 2 three_fastas = inr chunks /\
    (1 <= chunks <= 4)%nat.
Proof.
  destruct (old_chunks_within_bounds 16384 0 2 three_fastas) as [c [E [Hb _]]].
  - lra.
  - exists c. split; [exact E|exact Hb].
Defined.

End Bt2ChunksFacts.
